(** * Scoring core of the repository evaluator: bus factor and NetScore

    A shallow embedding of [src/busfactor.ts] and of the batch loop of
    [src/run.ts], followed by the properties claimed about them.

    Number model.  The program computes with JavaScript numbers.  Commit
    counts are integer-valued and are embedded as [Z]; scores, thresholds,
    latencies and clock readings are embedded as exact rationals [Q], so
    rounding of binary64 arithmetic is idealised away.  The one place where
    the non-finite numbers of the language decide the control flow, the
    division by the total commit count, is embedded with its three
    non-finite outcomes (module [JsNumber]).  Module [Binary64] repeats the
    loop and the weighted sum in IEEE 754 double precision, as the program
    runs them.  What depends on the outcome of a single comparison of the
    loop is stated on [Binary64]; what rounding cannot change (bounds,
    monotonicity, the behaviour on a zero total) is stated on the rational
    embedding; the last module says when the two count alike.

    Effects.  An awaited call either fulfils with a value or rejects with an
    error ([Promise]); [try]/[catch] is a match on that outcome.  What the
    program prints as NDJSON on its standard output is the list of records
    a function returns; log lines are left out. *)

From Stdlib Require Import ZArith QArith Qminmax List String Ascii Bool Lia Lqa.
From Stdlib Require Import SpecFloat Permutation.
Import ListNotations.

Open Scope Q_scope.

(* ================================================================== *)
(** ** Numbers produced by a division of two integers *)

Module JsNumber.

Inductive number : Type :=
| Finite (q : Q)
| PosInfinity
| NegInfinity
| NaN.

(** [a / b] for integer-valued operands: a zero divisor yields a
    non-finite number, never an exception. *)
Definition div (a b : Z) : number :=
  if (b =? 0)%Z then
    (if (0 <? a)%Z then PosInfinity
     else if (a <? 0)%Z then NegInfinity
     else NaN)
  else Finite (inject_Z a / inject_Z b).

(** [x * k] for a finite, positive constant [k]. *)
Definition mul_pos (x : number) (k : Q) : number :=
  match x with
  | Finite q => Finite (q * k)
  | other => other
  end.

(** [x >= t] for a finite [t]; every comparison with [NaN] is false. *)
Definition geb (x : number) (t : Q) : bool :=
  match x with
  | Finite q => Qle_bool t q
  | PosInfinity => true
  | NegInfinity => false
  | NaN => false
  end.

End JsNumber.

(* ================================================================== *)
(** ** Promises and [try]/[catch] *)

Definition error := string.

Inductive Promise (A : Type) : Type :=
| Fulfilled (a : A)
| Rejected (e : error).

Arguments Fulfilled {A} a.
Arguments Rejected {A} e.

(** [await p] followed by the rest of an [async] body. *)
Definition await {A B : Type} (p : Promise A) (k : A -> Promise B) : Promise B :=
  match p with
  | Fulfilled a => k a
  | Rejected e => Rejected e
  end.

Notation "'let*' x ':=' p 'in' k" := (await p (fun x => k))
  (at level 10, x pattern, p at level 100, k at level 200).

(* ================================================================== *)
(** ** busfactor.ts *)

Module BusFactor.

Record contributor : Type := {
  login : string;
  commits : Z
}.

Record metricResult : Type := {
  busfactor : Q;
  busfactory_latency : Q
}.

(** The part of the network client the evaluator uses. *)
Record Octokit : Type := {
  listContributors : string -> string -> Promise (list contributor)
}.

(** [Array.prototype.sort] with a comparator: a stable sort, here by
    insertion.  [x] stood before every element of [l] in the input, so it
    stays in front of the elements it compares equal to. *)
Section Sort.
Context {A : Type} (compareFn : A -> A -> Z).

Fixpoint insert (x : A) (l : list A) : list A :=
  match l with
  | [] => [x]
  | y :: l' =>
      if (compareFn x y <=? 0)%Z then x :: y :: l'
      else y :: insert x l'
  end.

Definition sort (l : list A) : list A := fold_right insert [] l.
End Sort.

(** [(a, b) => b.commits - a.commits] *)
Definition byCommitsDescending (a b : contributor) : Z :=
  (commits b - commits a)%Z.

(** [contributors.reduce((total, c) => total + c.commits, 0)] *)
Definition totalCommitsOf (contributors : list contributor) : Z :=
  fold_left (fun total c => (total + commits c)%Z) contributors 0%Z.

(** [(cumulativeCommits / totalCommits) * 100], in exact arithmetic.  The
    program rounds the quotient and the product to doubles; what it computes
    bit for bit is [Binary64.percentageOf], and the properties that depend
    on the outcome of a single comparison are stated there. *)
Definition percentageOf (cumulativeCommits totalCommits : Z) : JsNumber.number :=
  JsNumber.mul_pos (JsNumber.div cumulativeCommits totalCommits) 100.

(** The [for ... of] loop, from the state [(cumulativeCommits, busFactor)]
    it is entered with; a [break] returns the counter at once. *)
Fixpoint walk (threshold : Q) (totalCommits : Z) (contributors : list contributor)
         (cumulativeCommits : Z) (busFactor : nat) : nat :=
  match contributors with
  | [] => busFactor
  | c :: rest =>
      let cumulativeCommits := (cumulativeCommits + commits c)%Z in
      let busFactor := S busFactor in
      let percentage := percentageOf cumulativeCommits totalCommits in
      if JsNumber.geb percentage threshold then busFactor
      else walk threshold totalCommits rest cumulativeCommits busFactor
  end.

(** The raw bus factor: what the body of the [try] leaves in [busFactor]
    once the contributor list has been received. *)
Definition rawBusFactor (data : list contributor) (threshold : Q) : nat :=
  let contributors := sort byCommitsDescending data in
  let totalCommits := totalCommitsOf contributors in
  walk threshold totalCommits contributors 0%Z 0%nat.

(** The [if]/[else if] chain that scales the counter. *)
Definition scaledBusFactorOf (busFactor : nat) : Q :=
  if (busFactor <=? 2)%nat then 0
  else if (busFactor <=? 4)%nat then 0.25
  else if (busFactor <=? 6)%nat then 0.5
  else if (busFactor <=? 8)%nat then 0.75
  else 1.

(** What the [catch] block returns. *)
Definition failure : metricResult :=
  {| busfactor := -1; busfactory_latency := -1 |}.

(** [calculateBusFactor(owner, repo, threshold, octokit)].  [startTime] and
    [endTime] are the two readings of [performance.now()], in
    milliseconds. *)
Definition calculateBusFactor (owner repo : string) (threshold : Q)
           (octokit : Octokit) (startTime endTime : Q) : Promise metricResult :=
  let body : Promise nat :=
    let* data := listContributors octokit owner repo in
    Fulfilled (rawBusFactor data threshold) in
  match body with
  | Rejected _ => Fulfilled failure
  | Fulfilled busFactor =>
      let scaledBusFactor := scaledBusFactorOf busFactor in
      let latency := (endTime - startTime) / 1000 in
      Fulfilled {| busfactor := scaledBusFactor; busfactory_latency := latency |}
  end.

(** *** The words of the specification, for comparison *)

Definition sumCommits (l : list contributor) : Z :=
  fold_right (fun c acc => (commits c + acc)%Z) 0%Z l.

(** Commits held by the first [k] contributors of a list. *)
Definition commitsOfTop (k : nat) (sorted : list contributor) : Z :=
  sumCommits (firstn k sorted).

(** Cumulative share, in percent, of the top [k] contributors of [data];
    meaningful when the total is not zero. *)
Definition topSharePercent (data : list contributor) (k : nat) : Q :=
  let sorted := sort byCommitsDescending data in
  inject_Z (commitsOfTop k sorted) / inject_Z (totalCommitsOf data) * 100.

(** [k] is the smallest positive count whose top share reaches the
    threshold. *)
Definition smallestReaching (data : list contributor) (threshold : Q) (k : nat) : Prop :=
  (1 <= k)%nat /\
  threshold <= topSharePercent data k /\
  forall j, (1 <= j < k)%nat -> ~ threshold <= topSharePercent data j.

(** Non-increasing order of commit count. *)
Inductive descending : list contributor -> Prop :=
| descending_nil : descending []
| descending_one c : descending [c]
| descending_cons c d l :
    (commits d <= commits c)%Z -> descending (d :: l) -> descending (c :: d :: l).

(** The exit test of the loop, on a running sum. *)
Definition reaches (threshold : Q) (totalCommits cumulativeCommits : Z) : bool :=
  JsNumber.geb (percentageOf cumulativeCommits totalCommits) threshold.


(** Sample inputs. *)
Definition evenSplit : list contributor :=
  map (fun l => {| login := l; commits := 10 |})
      ["A"; "B"; "C"; "D"; "E"; "F"; "G"; "H"; "I"; "J"]%string.

Definition dominated : list contributor :=
  [ {| login := "A"; commits := 60 |};
    {| login := "B"; commits := 25 |};
    {| login := "C"; commits := 15 |} ]%string.

Definition anonymous (n : Z) : contributor :=
  {| login := "dev"; commits := n |}.

(** A larger top share, yet more people needed to reach one half. *)
Definition longTail : list contributor :=
  map anonymous [4; 1; 1; 1; 1; 1; 1; 1]%Z.

Definition threeLeaders : list contributor :=
  map anonymous [3; 3; 3; 1]%Z.

Definition respondsWith (data : list contributor) : Octokit :=
  {| listContributors := fun _ _ => Fulfilled data |}.

Definition unreachable : Octokit :=
  {| listContributors := fun _ _ => Rejected "Not Found"%string |}.

(** The same contributor with [k] times the commits. *)
Definition scaleCommits (k : Z) (c : contributor) : contributor :=
  {| login := login c; commits := (k * commits c)%Z |}.

(** Selection of the contributors with a given commit count. *)
Definition withCommits (n : Z) (l : list contributor) : list contributor :=
  filter (fun c => (commits c =? n)%Z) l.

End BusFactor.

(* ================================================================== *)
(** ** run.ts *)

Module Run.
Import BusFactor.

(** Results of the four evaluators whose modules are imported by
    [run.ts]; the field names are those the batch loop destructures. *)
Record responsivenessResult : Type := {
  responsiveness : Q;
  responsiveness_latency : Q
}.

Record correctnessResult : Type := {
  correctness : Q;
  correctness_latency : Q
}.

Record licenseResult : Type := {
  license : Q;
  license_latency : Q
}.

Record rampupResult : Type := {
  rampup : Q;
  rampup_latency : Q
}.

(** One line of NDJSON output, fields in the order they are written. *)
Record NetScoreRecord : Type := {
  URL : string;
  NetScore : Q;
  NetScore_Latency : Q;
  RampUp : Q;
  RampUp_Latency : Q;
  Correctness : Q;
  Correctness_Latency : Q;
  BusFactor : Q;
  BusFactor_Latency : Q;
  ResponsiveMaintainer : Q;
  ResponsiveMaintainer_Latency : Q;
  License : Q;
  License_Latency : Q
}.

(** *** The pattern [/github\.com\/([^\/]+)\/([^\/]+)/] *)

Definition slash : ascii := "/"%char.

(** A literal at the head of the subject; the rest of the subject. *)
Fixpoint literal (lit s : string) : option string :=
  match lit, s with
  | EmptyString, _ => Some s
  | String a lit', String b s' =>
      if Ascii.eqb a b then literal lit' s' else None
  | String _ _, EmptyString => None
  end.

(** The longest run of characters other than a slash, and what follows. *)
Fixpoint nonSlashes (s : string) : string * string :=
  match s with
  | EmptyString => (EmptyString, EmptyString)
  | String c s' =>
      if Ascii.eqb c slash then (EmptyString, s)
      else let (run, rest) := nonSlashes s' in (String c run, rest)
  end.

Definition isEmpty (s : string) : bool :=
  match s with
  | EmptyString => true
  | String _ _ => false
  end.

(** A match that starts at the head of the subject.  Both groups are
    greedy; giving back characters can never help, since the character
    after a shortened run is not a slash. *)
Definition matchHere (s : string) : option (string * string) :=
  match literal "github.com/" s with
  | None => None
  | Some afterHost =>
      let (group1, afterOwner) := nonSlashes afterHost in
      if isEmpty group1 then None
      else
        match afterOwner with
        | String c afterSlash =>
            if Ascii.eqb c slash then
              let (group2, _) := nonSlashes afterSlash in
              if isEmpty group2 then None else Some (group1, group2)
            else None
        | EmptyString => None
        end
  end.

(** [url.match(...)]: the leftmost start position that matches. *)
Fixpoint matchPattern (url : string) : option (string * string) :=
  match matchHere url with
  | Some groups => Some groups
  | None =>
      match url with
      | EmptyString => None
      | String _ url' => matchPattern url'
      end
  end.

(** [extractOwnerAndRepo]: [null] is [None]. *)
Definition extractOwnerAndRepo (url : string) : option string * option string :=
  match matchPattern url with
  | Some (owner, repo) => (Some owner, Some repo)
  | None => (None, None)
  end.

(** Truthiness of a [string | null]. *)
Definition truthy (s : option string) : bool :=
  match s with
  | Some s' => negb (isEmpty s')
  | None => false
  end.

(** [fs.readFileSync(urlFile, 'utf-8').split('\n').filter(Boolean)] *)
Definition newline : ascii := Ascii.ascii_of_nat 10.

Fixpoint split (contents : string) : list string :=
  match contents with
  | EmptyString => [EmptyString]
  | String c contents' =>
      if Ascii.eqb c newline then EmptyString :: split contents'
      else
        match split contents' with
        | line :: lines => String c line :: lines
        | [] => [String c EmptyString]
        end
  end.

Definition readUrls (contents : string) : list string :=
  filter (fun line => negb (isEmpty line)) (split contents).

(** [Promise.all] of the five evaluators: all results, or a rejection. *)
Definition all5 {A B C D E : Type}
           (a : Promise A) (b : Promise B) (c : Promise C)
           (d : Promise D) (e : Promise E) : Promise (A * B * C * D * E) :=
  let* x1 := a in
  let* x2 := b in
  let* x3 := c in
  let* x4 := d in
  let* x5 := e in
  Fulfilled (x1, x2, x3, x4, x5).

(** [Math.max(x, 0)] *)
Definition clamp (x : Q) : Q := Qmax x 0.

(** The statements between [Promise.all] and [console.log]. *)
Definition netScoreRecord (url : string)
           (r : responsivenessResult) (c : correctnessResult)
           (b : metricResult) (l : licenseResult) (u : rampupResult)
  : NetScoreRecord :=
  let responsivenessNet := clamp (responsiveness r) in
  let correctnessNet := clamp (correctness c) in
  let busfactorNet := clamp (busfactor b) in
  let licenseNet := clamp (license l) in
  let rampupNet := clamp (rampup u) in
  let netscore :=
    0.40 * responsivenessNet + 0.30 * correctnessNet + 0.15 * busfactorNet
    + 0.10 * rampupNet + 0.05 * licenseNet in
  let netscore_latency :=
    responsiveness_latency r + correctness_latency c + busfactory_latency b
    + rampup_latency u + license_latency l in
  {| URL := url;
     NetScore := netscore;
     NetScore_Latency := netscore_latency;
     RampUp := rampup u;
     RampUp_Latency := rampup_latency u;
     Correctness := correctness c;
     Correctness_Latency := correctness_latency c;
     BusFactor := busfactor b;
     BusFactor_Latency := busfactory_latency b;
     ResponsiveMaintainer := responsiveness r;
     ResponsiveMaintainer_Latency := responsiveness_latency r;
     License := license l;
     License_Latency := license_latency l |}.

Section Batch.
(** The evaluators defined outside the files at hand, as the batch loop
    calls them, and the clock of the bus-factor evaluation of a
    repository: its two readings of [performance.now()]. *)
Variable calculateResponsiveness : string -> string -> Octokit -> Promise responsivenessResult.
Variable calculateCorrectness : string -> string -> Octokit -> Promise correctnessResult.
Variable calculateLicenseCompatibility : string -> string -> Q -> Octokit -> Promise licenseResult.
Variable calculateRampUpTime : string -> string -> Q -> Octokit -> Promise rampupResult.
Variable performanceNow : string -> string -> Q * Q.
Variable octokit : Octokit.

(** The five evaluations of one repository, joined. *)
Definition evaluate (owner repo : string) :=
  all5 (calculateResponsiveness owner repo octokit)
       (calculateCorrectness owner repo octokit)
       (calculateBusFactor owner repo 50 octokit
          (fst (performanceNow owner repo)) (snd (performanceNow owner repo)))
       (calculateLicenseCompatibility owner repo 50 octokit)
       (calculateRampUpTime owner repo 50 octokit).

(** One turn of the [for] loop: the records it prints. *)
Definition processUrl (url : string) : list NetScoreRecord :=
  let (owner, repo) := extractOwnerAndRepo url in
  if truthy owner && truthy repo then
    match owner, repo with
    | Some owner, Some repo =>
        match evaluate owner repo with
        | Fulfilled (r, c, b, l, u) => [netScoreRecord url r c b l u]
        | Rejected _ => []
        end
    | _, _ => []
    end
  else [].

(** The [for] loop over the lines, threading what has been printed. *)
Definition processLines (urls : list string) : list NetScoreRecord :=
  fold_left (fun printed url => printed ++ processUrl url) urls [].

(** [processUrls], from the contents of the URL file. *)
Definition processUrls (contents : string) : list NetScoreRecord :=
  processLines (readUrls contents).

(** A line leads to a record when it names a repository and none of its
    evaluations rejects. *)
Definition namesRepository (url : string) : bool :=
  let (owner, repo) := extractOwnerAndRepo url in truthy owner && truthy repo.

Definition evaluationThrows (url : string) : bool :=
  match extractOwnerAndRepo url with
  | (Some owner, Some repo) =>
      match evaluate owner repo with
      | Fulfilled _ => false
      | Rejected _ => true
      end
  | _ => false
  end.

End Batch.

(** *** Shapes of strings *)

(** No character of [s] is [c]. *)
Fixpoint without (c : ascii) (s : string) : bool :=
  match s with
  | EmptyString => true
  | String a s' => negb (Ascii.eqb a c) && without c s'
  end.

(** What is left of a URL after the repository name: nothing, or a path
    that starts with a slash. *)
Definition pathOrEnd (s : string) : bool :=
  match s with
  | EmptyString => true
  | String a _ => Ascii.eqb a slash
  end.

(** [lines.join('\n')] *)
Fixpoint joinLines (lines : list string) : string :=
  match lines with
  | [] => EmptyString
  | [line] => line
  | line :: rest => (line ++ String newline (joinLines rest))%string
  end.

(** *** Sample collaborators *)

Definition steadyResponsiveness (owner repo : string) (_ : Octokit)
  : Promise responsivenessResult :=
  Fulfilled {| responsiveness := 0.5; responsiveness_latency := 0.1 |}.

Definition steadyCorrectness (owner repo : string) (_ : Octokit)
  : Promise correctnessResult :=
  Fulfilled {| correctness := 1; correctness_latency := 0.1 |}.

(** Rejects for the repository called [broken], as an unexpected
    exception inside an evaluator would. *)
Definition brittleCorrectness (owner repo : string) (_ : Octokit)
  : Promise correctnessResult :=
  if String.eqb repo "broken" then Rejected "TypeError"%string
  else Fulfilled {| correctness := 1; correctness_latency := 0.1 |}.

Definition steadyLicense (owner repo : string) (_ : Q) (_ : Octokit)
  : Promise licenseResult :=
  Fulfilled {| license := 1; license_latency := 0.1 |}.

Definition steadyRampUp (owner repo : string) (_ : Q) (_ : Octokit)
  : Promise rampupResult :=
  Fulfilled {| rampup := 0.25; rampup_latency := 0.1 |}.

Definition quarterSecond (owner repo : string) : Q * Q := (1000, 1250).

Definition sampleBatch : list string :=
  [ "https://github.com/nodejs/node";
    "https://github.com/acme/broken";
    "https://github.com/lodash/lodash" ]%string.

End Run.

(* ================================================================== *)
(** ** run.ts: the command line *)

Module Cli.
Import BusFactor Run.

(** How the process ends: [process.exit(code)] after having printed some
    records, or an exception that nothing catches. *)
Inductive Outcome : Type :=
| Exit (code : Z) (printed : list NetScoreRecord)
| Uncaught (e : error).

(** What [exec] hands to its callback: an error with the text of the
    standard error, or the text of the standard output. *)
Inductive ExecResult : Type :=
| ExecFailed (stderr : string)
| ExecDone (stdout : string).

(** A promise is an object, and an object is truthy. *)
Definition truthyPromise {A : Type} (p : Promise A) : bool := true.

Section Process.
Variable calculateResponsiveness : string -> string -> Octokit -> Promise responsivenessResult.
Variable calculateCorrectness : string -> string -> Octokit -> Promise correctnessResult.
Variable calculateLicenseCompatibility : string -> string -> Q -> Octokit -> Promise licenseResult.
Variable calculateRampUpTime : string -> string -> Q -> Octokit -> Promise rampupResult.
Variable performanceNow : string -> string -> Q * Q.

(** [new Octokit({ auth: token })] on [Some token], [new Octokit({})] on
    [None]. *)
Variable newOctokit : option string -> Octokit.

(** [octokit.rest.users.getAuthenticated()] of the client made with a
    token. *)
Variable getAuthenticated : string -> Promise unit.

(** The file system: [fs.existsSync], and [fs.readFileSync(_, 'utf-8')],
    which returns the contents or throws. *)
Variable existsSync : string -> bool.
Variable readFileSync : string -> Promise string.

(** The outcome of [npm install]. *)
Variable npmInstall : ExecResult.

(** [process.env.GITHUB_TOKEN] *)
Variable GITHUB_TOKEN : option string.

Definition installDependencies : Outcome :=
  match npmInstall with
  | ExecFailed _ => Exit 1 []
  | ExecDone _ => Exit 0 []
  end.

Definition runTests : Outcome := Exit 0 [].

(** [processUrls(urlFile, token)] *)
Definition processUrls (urlFile token : string) : Outcome :=
  if negb (existsSync urlFile) then Exit 1 []
  else
    match readFileSync urlFile with
    | Rejected e => Uncaught e
    | Fulfilled contents =>
        let octokit :=
          newOctokit (if truthy (Some token) then Some token else None) in
        Exit 0 (Run.processUrls calculateResponsiveness calculateCorrectness
                  calculateLicenseCompatibility calculateRampUpTime
                  performanceNow octokit contents)
    end.

(** [validateToken]: the request is awaited inside a [try], so the promise
    returned always fulfils, with [true] or with [false]. *)
Definition validateToken (token : string) : Promise bool :=
  match getAuthenticated token with
  | Fulfilled _ => Fulfilled true
  | Rejected _ => Fulfilled false
  end.

(** [fs.existsSync(command)] where [command] may be [undefined]. *)
Definition commandExists (command : option string) : bool :=
  match command with
  | Some path => existsSync path
  | None => false
  end.

(** [main], from [process.argv]. *)
Definition main (argv : list string) : Outcome :=
  let command := nth_error argv 2 in
  let token :=
    if truthy GITHUB_TOKEN then
      match GITHUB_TOKEN with Some t => t | None => EmptyString end
    else EmptyString in
  let otherwise :=
    if negb (commandExists command) then Exit 1 []
    else if negb (truthyPromise (validateToken token)) then Exit 1 []
    else
      match command with
      | Some urlFile => processUrls urlFile token
      | None => Exit 1 []
      end in
  match command with
  | Some cmd =>
      if String.eqb cmd "install" then installDependencies
      else if String.eqb cmd "test" then runTests
      else otherwise
  | None => otherwise
  end.

End Process.

(** *** A sample installation *)

Definition urlFileOnly (path : string) : bool := String.eqb path "urls.txt".

Definition urlFileContents (path : string) : Promise string :=
  if String.eqb path "urls.txt"
  then Fulfilled (joinLines sampleBatch)
  else Rejected "ENOENT"%string.

Definition badCredentials (token : string) : Promise unit :=
  Rejected "Bad credentials"%string.

End Cli.

(* ================================================================== *)
(** ** The same computations in binary64

    The numbers of the program are IEEE 754 doubles.  This module repeats
    the loop of the bus factor and the weighted sum of the NetScore on
    [spec_float] at precision 53, with round-to-nearest-even in every
    operation, so that the rational embedding above can be compared with it
    on given inputs. *)

Module Binary64.
Import BusFactor.

Definition prec : Z := 53.
Definition emax : Z := 1024.

Definition ofZ (z : Z) : spec_float := binary_normalize prec emax z 0 false.
Definition add : spec_float -> spec_float -> spec_float := SFadd prec emax.
Definition mul : spec_float -> spec_float -> spec_float := SFmul prec emax.
Definition div : spec_float -> spec_float -> spec_float := SFdiv prec emax.

(** The double a decimal literal [n/d] denotes: the one nearest to it. *)
Definition decimal (n d : Z) : spec_float := div (ofZ n) (ofZ d).

(** [x >= y] *)
Definition geb (x y : spec_float) : bool :=
  match SFcompare x y with
  | Some Gt | Some Eq => true
  | _ => false
  end.

Definition totalCommitsOf (contributors : list contributor) : spec_float :=
  fold_left (fun total c => add total (ofZ (commits c))) contributors (ofZ 0).

Definition percentageOf (cumulativeCommits totalCommits : spec_float) : spec_float :=
  mul (div cumulativeCommits totalCommits) (ofZ 100).

Fixpoint walk (threshold totalCommits : spec_float) (contributors : list contributor)
         (cumulativeCommits : spec_float) (busFactor : nat) : nat :=
  match contributors with
  | [] => busFactor
  | c :: rest =>
      let cumulativeCommits := add cumulativeCommits (ofZ (commits c)) in
      let busFactor := S busFactor in
      let percentage := percentageOf cumulativeCommits totalCommits in
      if geb percentage threshold then busFactor
      else walk threshold totalCommits rest cumulativeCommits busFactor
  end.

Definition rawBusFactor (data : list contributor) (threshold : spec_float) : nat :=
  let contributors := sort byCommitsDescending data in
  let totalCommits := totalCommitsOf contributors in
  walk threshold totalCommits contributors (ofZ 0) 0%nat.

(** The running sum after [k] steps of the loop. *)
Definition runningSum (cumulativeCommits : spec_float) (cs : list contributor) (k : nat)
  : spec_float :=
  fold_left (fun cum c => add cum (ofZ (commits c))) (firstn k cs) cumulativeCommits.

(** The weighted sum of [run.ts], on values already clamped. *)
Definition netscore (responsivenessNet correctnessNet busfactorNet rampupNet licenseNet
                     : spec_float) : spec_float :=
  add (add (add (add (mul (decimal 40 100) responsivenessNet)
                     (mul (decimal 30 100) correctnessNet))
                (mul (decimal 15 100) busfactorNet))
           (mul (decimal 10 100) rampupNet))
      (mul (decimal 5 100) licenseNet).

(** Total 100, and a first share of exactly 29 percent. *)
Definition onTheMark : list contributor :=
  map anonymous [29; 24; 24; 23]%Z.

(** A positive, finite double. *)
Definition positiveFinite (x : spec_float) : bool :=
  match x with
  | S754_finite false _ _ => true
  | _ => false
  end.

(** The percentage the loop computes once it has added the [k]-th
    contributor of the sorted list. *)
Definition computedPercentage (data : list contributor) (k : nat) : spec_float :=
  let contributors := sort byCommitsDescending data in
  percentageOf (runningSum (ofZ 0) contributors k) (totalCommitsOf contributors).

(** [k] is the smallest positive count whose computed percentage is at
    least the threshold. *)
Definition smallestComputed (data : list contributor) (threshold : spec_float) (k : nat)
  : Prop :=
  (1 <= k)%nat /\
  geb (computedPercentage data k) threshold = true /\
  forall j, (1 <= j < k)%nat -> geb (computedPercentage data j) threshold = false.

(** [calculateBusFactor] with the loop in double precision; the two clock
    readings and their difference stay rational. *)
Definition calculateBusFactor (owner repo : string) (threshold : spec_float)
           (octokit : Octokit) (startTime endTime : Q) : Promise metricResult :=
  let body : Promise nat :=
    let* data := listContributors octokit owner repo in
    Fulfilled (rawBusFactor data threshold) in
  match body with
  | Rejected _ => Fulfilled failure
  | Fulfilled busFactor =>
      let scaledBusFactor := scaledBusFactorOf busFactor in
      let latency := (endTime - startTime) / 1000 in
      Fulfilled {| busfactor := scaledBusFactor; busfactory_latency := latency |}
  end.

End Binary64.

(* ================================================================== *)
(** * Properties *)

(** ** Rational literals and comparisons *)

Ltac qcompute := unfold Qle, Qlt, Qeq; simpl; lia.

(** ** Sorting and summing *)

Module BusFactorFacts.
Import BusFactor.

Lemma fold_left_commits (l : list contributor) (a : Z) :
  fold_left (fun total c => (total + commits c)%Z) l a = (a + sumCommits l)%Z.
Proof.
  revert a; induction l as [|c l IH]; intros a; simpl.
  - lia.
  - rewrite IH. lia.
Qed.

Lemma totalCommitsOf_sum (l : list contributor) :
  totalCommitsOf l = sumCommits l.
Proof. unfold totalCommitsOf. rewrite fold_left_commits. lia. Qed.

Lemma sumCommits_insert (cmp : contributor -> contributor -> Z) x l :
  sumCommits (insert cmp x l) = (commits x + sumCommits l)%Z.
Proof.
  induction l as [|y l IH]; simpl; [reflexivity|].
  destruct (cmp x y <=? 0)%Z; simpl; [reflexivity|].
  rewrite IH. lia.
Qed.

Lemma sumCommits_sort (cmp : contributor -> contributor -> Z) l :
  sumCommits (sort cmp l) = sumCommits l.
Proof.
  induction l as [|x l IH]; simpl; [reflexivity|].
  rewrite sumCommits_insert, IH. reflexivity.
Qed.

Lemma totalCommitsOf_sort (cmp : contributor -> contributor -> Z) l :
  totalCommitsOf (sort cmp l) = totalCommitsOf l.
Proof. rewrite !totalCommitsOf_sum. apply sumCommits_sort. Qed.

Lemma length_insert {A} (cmp : A -> A -> Z) x l :
  List.length (insert cmp x l) = S (List.length l).
Proof.
  induction l as [|y l IH]; simpl; [reflexivity|].
  destruct (cmp x y <=? 0)%Z; simpl; [reflexivity|].
  now rewrite IH.
Qed.

Lemma length_sort {A} (cmp : A -> A -> Z) (l : list A) :
  List.length (sort cmp l) = List.length l.
Proof.
  induction l as [|x l IH]; simpl; [reflexivity|].
  now rewrite length_insert, IH.
Qed.

(** The model of [Array.prototype.sort] does sort. *)

Lemma insert_descending x l :
  descending l -> descending (insert byCommitsDescending x l).
Proof.
  induction 1 as [|c|c d l Hcd Hl IH]; simpl.
  - constructor.
  - unfold byCommitsDescending.
    destruct (Z.leb_spec (commits c - commits x) 0); repeat constructor; lia.
  - unfold byCommitsDescending in *. simpl in IH.
    destruct (Z.leb_spec (commits c - commits x) 0).
    + repeat constructor; try lia; assumption.
    + destruct (Z.leb_spec (commits d - commits x) 0).
      * repeat constructor; try lia; assumption.
      * constructor; [lia | assumption].
Qed.

Lemma sort_descending l : descending (sort byCommitsDescending l).
Proof.
  induction l as [|x l IH]; simpl; [constructor | now apply insert_descending].
Qed.

(** ** The loop *)

(** Where the walk stops: at the first running sum that passes the exit
    test, or at the end of the list when none does. *)
Lemma walk_exit (th : Q) (T : Z) (cs : list contributor) :
  forall (cum : Z) (bf : nat),
    (exists k, (1 <= k <= List.length cs)%nat /\
               walk th T cs cum bf = (bf + k)%nat /\
               reaches th T (cum + commitsOfTop k cs) = true /\
               forall j, (1 <= j < k)%nat ->
                         reaches th T (cum + commitsOfTop j cs) = false)
    \/ (walk th T cs cum bf = (bf + List.length cs)%nat /\
        forall j, (1 <= j <= List.length cs)%nat ->
                  reaches th T (cum + commitsOfTop j cs) = false).
Proof.
  induction cs as [|c rest IH]; intros cum bf.
  - right. simpl. split; [lia | intros j Hj; lia].
  - simpl walk.
    destruct (JsNumber.geb (percentageOf (cum + commits c) T) th) eqn:Hexit.
    + left. exists 1%nat. simpl List.length.
      split; [lia|]. split; [lia|]. split.
      * unfold reaches, commitsOfTop. simpl.
        replace (cum + (commits c + 0))%Z with (cum + commits c)%Z by lia.
        exact Hexit.
      * intros j Hj; lia.
    + assert (Hshift : forall j, (cum + commitsOfTop (S j) (c :: rest)
                                 = cum + commits c + commitsOfTop j rest)%Z).
      { intros j. unfold commitsOfTop. simpl. lia. }
      destruct (IH (cum + commits c)%Z (S bf)) as [(k & Hk & Hw & Hr & Hmin) | (Hw & Hnone)].
      * left. exists (S k). simpl List.length.
        split; [lia|]. split; [rewrite Hw; lia|]. split.
        -- rewrite Hshift. exact Hr.
        -- intros [|[|j]] Hj; [lia | |].
           ++ rewrite Hshift. unfold commitsOfTop; simpl.
              replace (cum + commits c + 0)%Z with (cum + commits c)%Z by lia.
              exact Hexit.
           ++ rewrite Hshift. apply Hmin. lia.
      * right. simpl List.length. split; [rewrite Hw; lia|].
        intros [|[|j]] Hj; [lia | |].
        -- rewrite Hshift. unfold commitsOfTop; simpl.
           replace (cum + commits c + 0)%Z with (cum + commits c)%Z by lia.
           exact Hexit.
        -- rewrite Hshift. apply Hnone. simpl in Hj. lia.
Qed.





End BusFactorFacts.

(* ================================================================== *)
(** ** The bus-factor evaluator *)

Import BusFactor BusFactorFacts.

Lemma latency_nonneg (startTime endTime : Q) :
  startTime <= endTime -> 0 <= (endTime - startTime) / 1000.
Proof.
  intros H. apply Qle_shift_div_l; [reflexivity | lra].
Qed.

Lemma scaledBusFactorOf_levels (n : nat) :
  In (scaledBusFactorOf n) [0; 0.25; 0.5; 0.75; 1].
Proof.
  unfold scaledBusFactorOf.
  destruct (n <=? 2)%nat; [simpl; tauto|].
  destruct (n <=? 4)%nat; [simpl; tauto|].
  destruct (n <=? 6)%nat; [simpl; tauto|].
  destruct (n <=? 8)%nat; simpl; tauto.
Qed.

Lemma levels_in_unit_interval (q : Q) :
  In q [0; 0.25; 0.5; 0.75; 1] -> 0 <= q <= 1.
Proof.
  simpl. intros [H|[H|[H|[H|[H|[]]]]]]; subst q; split; qcompute.
Qed.

(** The evaluator always fulfils: with the failure pair when the request
    rejects, with a scaled counter and the elapsed time otherwise. *)
Lemma calculateBusFactor_outcome owner repo threshold octokit startTime endTime :
  (exists e, listContributors octokit owner repo = Rejected e /\
             calculateBusFactor owner repo threshold octokit startTime endTime
             = Fulfilled failure)
  \/ (exists data, listContributors octokit owner repo = Fulfilled data /\
                   calculateBusFactor owner repo threshold octokit startTime endTime
                   = Fulfilled {| busfactor := scaledBusFactorOf (rawBusFactor data threshold);
                                  busfactory_latency := (endTime - startTime) / 1000 |}).
Proof.
  unfold calculateBusFactor, await.
  destruct (listContributors octokit owner repo) as [data|e].
  - right. exists data. split; reflexivity.
  - left. exists e. split; reflexivity.
Qed.

(** C2. When the request for the contributor list raises, the evaluator
    does not raise: it fulfils with the pair (-1, -1).  Whatever the input,
    it fulfils, and its result never couples the value -1 with a
    non-negative latency, nor a non-negative value with the latency -1
    (the clock being monotonic). *)
Theorem calculateBusFactor_failure_is_paired :
  forall owner repo threshold octokit startTime endTime,
    startTime <= endTime ->
    (forall e, listContributors octokit owner repo = Rejected e ->
               calculateBusFactor owner repo threshold octokit startTime endTime
               = Fulfilled failure) /\
    exists r,
      calculateBusFactor owner repo threshold octokit startTime endTime = Fulfilled r /\
      ~ (busfactor r == -1 /\ 0 <= busfactory_latency r) /\
      ~ (0 <= busfactor r /\ busfactory_latency r == -1).
Proof.
  intros owner repo threshold octokit startTime endTime Hclock.
  destruct (calculateBusFactor_outcome owner repo threshold octokit startTime endTime)
    as [(e & He & Hr) | (data & Hd & Hr)].
  - split; [intros _ _; exact Hr|].
    exists failure. split; [exact Hr|]. simpl. split; intros [H1 H2]; revert H1 H2; qcompute.
  - split; [intros e He; congruence|].
    eexists. split; [exact Hr|]. simpl.
    pose proof (latency_nonneg _ _ Hclock) as Hlat.
    pose proof (levels_in_unit_interval _ (scaledBusFactorOf_levels (rawBusFactor data threshold)))
      as [Hlo _].
    split; intros [H1 H2].
    + rewrite H1 in Hlo. revert Hlo. qcompute.
    + rewrite H2 in Hlat. revert Hlat. qcompute.
Qed.

Lemma calculateBusFactor_failure_is_paired_witness :
  0 <= 250 /\
  calculateBusFactor "acme" "gone" 50 unreachable 0 250 = Fulfilled failure.
Proof.
  split; [qcompute|].
  apply (proj1 (calculateBusFactor_failure_is_paired
                  "acme" "gone" 50 unreachable 0 250 ltac:(qcompute))
               "Not Found"%string).
  reflexivity.
Defined.

(** C6. The scaling is the step table 0, 0.25, 0.5, 0.75, 1 with steps
    after 2, 4, 6 and 8, and it is non-decreasing. *)
Theorem scaledBusFactorOf_step_table :
  (forall raw : nat,
      ((raw <= 2)%nat -> scaledBusFactorOf raw = 0) /\
      ((2 < raw <= 4)%nat -> scaledBusFactorOf raw = 0.25) /\
      ((4 < raw <= 6)%nat -> scaledBusFactorOf raw = 0.5) /\
      ((6 < raw <= 8)%nat -> scaledBusFactorOf raw = 0.75) /\
      ((8 < raw)%nat -> scaledBusFactorOf raw = 1)) /\
  (forall a b : nat, (a <= b)%nat -> scaledBusFactorOf a <= scaledBusFactorOf b).
Proof.
  split.
  - intros raw. unfold scaledBusFactorOf.
    destruct (Nat.leb_spec raw 2); [repeat split; intros; (reflexivity || lia)|].
    destruct (Nat.leb_spec raw 4); [repeat split; intros; (reflexivity || lia)|].
    destruct (Nat.leb_spec raw 6); [repeat split; intros; (reflexivity || lia)|].
    destruct (Nat.leb_spec raw 8); repeat split; intros; (reflexivity || lia).
  - intros a b Hab. unfold scaledBusFactorOf.
    destruct (Nat.leb_spec a 2); destruct (Nat.leb_spec b 2); try lia;
      destruct (Nat.leb_spec a 4); destruct (Nat.leb_spec b 4); try lia;
      destruct (Nat.leb_spec a 6); destruct (Nat.leb_spec b 6); try lia;
      destruct (Nat.leb_spec a 8); destruct (Nat.leb_spec b 8); try lia;
      qcompute.
Qed.

Lemma scaledBusFactorOf_step_table_witness :
  scaledBusFactorOf 3 = 0.25 /\ scaledBusFactorOf 4 <= scaledBusFactorOf 7.
Proof.
  split.
  - apply (proj1 (proj2 (proj1 scaledBusFactorOf_step_table 3%nat))). lia.
  - apply (proj2 scaledBusFactorOf_step_table 4%nat 7%nat). lia.
Defined.

(** *** A total of zero *)

Lemma in_insert {A} (cmp : A -> A -> Z) (x y : A) (l : list A) :
  In y (insert cmp x l) -> y = x \/ In y l.
Proof.
  induction l as [|z l IH]; simpl.
  - intros [H|[]]; auto.
  - destruct (cmp x z <=? 0)%Z; simpl.
    + intros [H|[H|H]]; auto.
    + intros [H|H]; auto. destruct (IH H); auto.
Qed.

Lemma in_sort {A} (cmp : A -> A -> Z) (y : A) (l : list A) :
  In y (sort cmp l) -> In y l.
Proof.
  induction l as [|x l IH]; simpl; [tauto|].
  intros H. destruct (in_insert _ _ _ _ H); auto.
Qed.

Lemma sumCommits_all_zero (l : list contributor) :
  (forall c, In c l -> commits c = 0%Z) -> sumCommits l = 0%Z.
Proof.
  induction l as [|c l IH]; simpl; intros H; [reflexivity|].
  rewrite IH by auto. rewrite (H c) by auto. reflexivity.
Qed.

Lemma in_firstn {A} (k : nat) (l : list A) (x : A) :
  In x (firstn k l) -> In x l.
Proof.
  revert l; induction k as [|k IH]; intros [|y l]; simpl; try tauto.
  intros [H|H]; auto.
Qed.

(** With every count at zero each percentage is NaN, no comparison holds
    and the loop counts every contributor. *)
Lemma rawBusFactor_all_zero (data : list contributor) (th : Q) :
  (forall c, In c data -> commits c = 0%Z) ->
  rawBusFactor data th = List.length data.
Proof.
  intros Hzero. unfold rawBusFactor.
  assert (Hs : forall c, In c (sort byCommitsDescending data) -> commits c = 0%Z).
  { intros c Hc. apply Hzero. eapply in_sort; eassumption. }
  rewrite totalCommitsOf_sum, (sumCommits_all_zero _ Hs).
  destruct (walk_exit th 0 (sort byCommitsDescending data) 0%Z 0%nat)
    as [(k & Hk & _ & Hr & _) | (Hw & _)].
  - exfalso. unfold commitsOfTop in Hr.
    rewrite sumCommits_all_zero in Hr.
    + discriminate Hr.
    + intros c Hc. apply Hs. eapply in_firstn; eassumption.
  - rewrite Hw, length_sort. reflexivity.
Qed.

(** The claim of C4 fails: an empty contributor list has total 0 and the
    evaluator answers with the score 0 and the elapsed time. *)
Lemma zero_total_is_scored :
  totalCommitsOf [] = 0%Z /\
  calculateBusFactor "acme" "empty" 50 (respondsWith []) 1000 1250
  = Fulfilled {| busfactor := 0; busfactory_latency := (1250 - 1000) / 1000 |} /\
  calculateBusFactor "acme" "empty" 50 (respondsWith []) 1000 1250
  <> Fulfilled failure.
Proof.
  split; [reflexivity|]. split; [reflexivity|]. discriminate.
Qed.

(** C4, amended.  For a contributor list whose total commit count is 0 the
    division raises nothing and the evaluator does not report a failure: it
    fulfils with the scaled counter, a value between 0 and 1, and the
    elapsed time; when every count is 0 the counter is the number of
    contributors. *)
Theorem zero_total_yields_a_score :
  forall owner repo threshold octokit startTime endTime data,
    listContributors octokit owner repo = Fulfilled data ->
    totalCommitsOf data = 0%Z ->
    calculateBusFactor owner repo threshold octokit startTime endTime
    = Fulfilled {| busfactor := scaledBusFactorOf (rawBusFactor data threshold);
                   busfactory_latency := (endTime - startTime) / 1000 |} /\
    0 <= scaledBusFactorOf (rawBusFactor data threshold) <= 1 /\
    ~ scaledBusFactorOf (rawBusFactor data threshold) == -1 /\
    ((forall c, In c data -> commits c = 0%Z) ->
     rawBusFactor data threshold = List.length data).
Proof.
  intros owner repo threshold octokit startTime endTime data Hfetch _.
  pose proof (levels_in_unit_interval _ (scaledBusFactorOf_levels (rawBusFactor data threshold)))
    as Hrange.
  split; [|split; [exact Hrange|split]].
  - destruct (calculateBusFactor_outcome owner repo threshold octokit startTime endTime)
      as [(e & He & _) | (data' & Hd & Hr)]; [congruence|].
    rewrite Hfetch in Hd. injection Hd as <-. exact Hr.
  - intros H. destruct Hrange as [Hlo _]. rewrite H in Hlo. revert Hlo. qcompute.
  - apply rawBusFactor_all_zero.
Qed.

Lemma zero_total_yields_a_score_witness :
  calculateBusFactor "acme" "idle" 50
    (respondsWith [anonymous 0; anonymous 0; anonymous 0]) 1000 1250
  = Fulfilled {| busfactor :=
                   scaledBusFactorOf
                     (rawBusFactor [anonymous 0; anonymous 0; anonymous 0] 50);
                 busfactory_latency := (1250 - 1000) / 1000 |}.
Proof.
  apply (proj1 (zero_total_yields_a_score "acme" "idle" 50
                  (respondsWith [anonymous 0; anonymous 0; anonymous 0]) 1000 1250
                  [anonymous 0; anonymous 0; anonymous 0] eq_refl eq_refl)).
Defined.

(** C9. When the contributor list is empty, so that the total is 0, and
    nothing is raised, the evaluator fulfils with the value 0, the raw
    counter 0 lying in the lowest band, and a non-negative latency, not
    with the failure pair. *)
Theorem empty_contributor_list_scores_zero :
  forall owner repo threshold octokit startTime endTime,
    listContributors octokit owner repo = Fulfilled [] ->
    startTime <= endTime ->
    totalCommitsOf [] = 0%Z /\
    rawBusFactor [] threshold = 0%nat /\
    exists r,
      calculateBusFactor owner repo threshold octokit startTime endTime = Fulfilled r /\
      busfactor r = 0 /\
      0 <= busfactory_latency r /\
      r <> failure /\
      ~ busfactory_latency r == -1.
Proof.
  intros owner repo threshold octokit startTime endTime Hfetch Hclock.
  split; [reflexivity|]. split; [reflexivity|].
  eexists. split.
  - unfold calculateBusFactor, await. rewrite Hfetch. reflexivity.
  - simpl. pose proof (latency_nonneg _ _ Hclock) as Hlat.
    split; [reflexivity|]. split; [exact Hlat|]. split; [discriminate|].
    intros H. rewrite H in Hlat. revert Hlat. qcompute.
Qed.

Lemma empty_contributor_list_scores_zero_witness :
  exists r,
    calculateBusFactor "acme" "empty" 50 (respondsWith []) 1000 1250 = Fulfilled r /\
    busfactor r = 0 /\ 0 <= busfactory_latency r.
Proof.
  destruct (empty_contributor_list_scores_zero "acme" "empty" 50 (respondsWith [])
              1000 1250 eq_refl ltac:(qcompute))
    as (_ & _ & r & Hr & Hv & Hl & _).
  exists r. auto.
Defined.

(** C10. A result of the evaluator other than the failure pair has its
    value among 0, 0.25, 0.5, 0.75 and 1, hence within [0,1] and on a step
    level, and a non-negative latency (the clock being monotonic). *)
Theorem successful_result_is_a_step_level :
  forall owner repo threshold octokit startTime endTime r,
    startTime <= endTime ->
    calculateBusFactor owner repo threshold octokit startTime endTime = Fulfilled r ->
    r <> failure ->
    In (busfactor r) [0; 0.25; 0.5; 0.75; 1] /\
    0 <= busfactor r <= 1 /\
    0 <= busfactory_latency r.
Proof.
  intros owner repo threshold octokit startTime endTime r Hclock Hr Hok.
  destruct (calculateBusFactor_outcome owner repo threshold octokit startTime endTime)
    as [(e & _ & Hf) | (data & _ & Hs)].
  - rewrite Hf in Hr. injection Hr as <-. contradiction.
  - rewrite Hs in Hr. injection Hr as <-. simpl.
    pose proof (scaledBusFactorOf_levels (rawBusFactor data threshold)) as Hin.
    split; [exact Hin|]. split; [apply levels_in_unit_interval, Hin|].
    apply latency_nonneg, Hclock.
Qed.

Lemma successful_result_is_a_step_level_witness :
  In (busfactor {| busfactor := 0.5; busfactory_latency := (1250 - 1000) / 1000 |})
     [0; 0.25; 0.5; 0.75; 1].
Proof.
  apply (successful_result_is_a_step_level "acme" "even" 50 (respondsWith evenSplit)
           1000 1250 _ ltac:(qcompute) eq_refl ltac:(discriminate)).
Defined.

(** *** Concentration *)




(* ================================================================== *)
(** ** The batch loop *)

Module RunFacts.
Import Run.

(** Both groups of a match are non-empty, hence truthy. *)
Lemma matchHere_groups (s owner repo : string) :
  matchHere s = Some (owner, repo) ->
  isEmpty owner = false /\ isEmpty repo = false.
Proof.
  unfold matchHere.
  destruct (literal _ s) as [afterHost|]; [|discriminate].
  destruct (nonSlashes afterHost) as [group1 afterOwner].
  destruct (isEmpty group1) eqn:E1; [discriminate|].
  destruct afterOwner as [|c afterSlash]; [discriminate|].
  destruct (Ascii.eqb c slash); [|discriminate].
  destruct (nonSlashes afterSlash) as [group2 rest].
  destruct (isEmpty group2) eqn:E2; [discriminate|].
  intros H; injection H as <- <-. split; assumption.
Qed.

Lemma matchPattern_eq (url : string) :
  matchPattern url
  = match matchHere url with
    | Some groups => Some groups
    | None =>
        match url with
        | EmptyString => None
        | String _ url' => matchPattern url'
        end
    end.
Proof. destruct url; reflexivity. Qed.

Lemma matchPattern_groups (url owner repo : string) :
  matchPattern url = Some (owner, repo) ->
  isEmpty owner = false /\ isEmpty repo = false.
Proof.
  induction url as [|a url IH]; rewrite matchPattern_eq.
  - destruct (matchHere EmptyString) as [[o r]|] eqn:E; [|discriminate].
    intros H; injection H as <- <-. eapply matchHere_groups; eassumption.
  - destruct (matchHere (String a url)) as [[o r]|] eqn:E; [|exact IH].
    intros H; injection H as <- <-. eapply matchHere_groups; eassumption.
Qed.

(** [extractOwnerAndRepo] answers with two strings or with two nulls. *)
Lemma extractOwnerAndRepo_cases (url : string) :
  extractOwnerAndRepo url = (None, None)
  \/ exists owner repo,
      extractOwnerAndRepo url = (Some owner, Some repo) /\
      truthy (Some owner) = true /\ truthy (Some repo) = true.
Proof.
  unfold extractOwnerAndRepo.
  destruct (matchPattern url) as [[owner repo]|] eqn:E; [right | left; reflexivity].
  exists owner, repo. split; [reflexivity|].
  destruct (matchPattern_groups _ _ _ E) as [H1 H2].
  simpl. rewrite H1, H2. split; reflexivity.
Qed.

Lemma clamp_nonneg (x : Q) : 0 <= x -> clamp x == x.
Proof. intros H. unfold clamp. apply Q.max_l. exact H. Qed.

Lemma clamp_lower (x : Q) : 0 <= clamp x.
Proof. unfold clamp. apply Q.le_max_r. Qed.

Lemma clamp_failure : clamp (-1) == 0.
Proof. unfold clamp. apply Q.max_r. qcompute. Qed.

Section Batch.
Variable calculateResponsiveness : string -> string -> BusFactor.Octokit -> Promise responsivenessResult.
Variable calculateCorrectness : string -> string -> BusFactor.Octokit -> Promise correctnessResult.
Variable calculateLicenseCompatibility : string -> string -> Q -> BusFactor.Octokit -> Promise licenseResult.
Variable calculateRampUpTime : string -> string -> Q -> BusFactor.Octokit -> Promise rampupResult.
Variable performanceNow : string -> string -> Q * Q.
Variable octokit : BusFactor.Octokit.

Local Abbreviation evaluate' :=
  (evaluate calculateResponsiveness calculateCorrectness
            calculateLicenseCompatibility calculateRampUpTime performanceNow octokit).
Local Abbreviation processUrl' :=
  (processUrl calculateResponsiveness calculateCorrectness
              calculateLicenseCompatibility calculateRampUpTime performanceNow octokit).
Local Abbreviation processLines' :=
  (processLines calculateResponsiveness calculateCorrectness
                calculateLicenseCompatibility calculateRampUpTime performanceNow octokit).

(** The join fulfils exactly when each of the five evaluations does. *)
Lemma evaluate_fulfilled (owner repo : string) r c b l u :
  calculateResponsiveness owner repo octokit = Fulfilled r ->
  calculateCorrectness owner repo octokit = Fulfilled c ->
  calculateBusFactor owner repo 50 octokit
    (fst (performanceNow owner repo)) (snd (performanceNow owner repo)) = Fulfilled b ->
  calculateLicenseCompatibility owner repo 50 octokit = Fulfilled l ->
  calculateRampUpTime owner repo 50 octokit = Fulfilled u ->
  evaluate' owner repo = Fulfilled (r, c, b, l, u).
Proof.
  intros Hr Hc Hb Hl Hu. unfold evaluate, all5, await.
  rewrite Hr, Hc, Hb, Hl, Hu. reflexivity.
Qed.

Lemma processUrl_fulfilled (url owner repo : string) r c b l u :
  extractOwnerAndRepo url = (Some owner, Some repo) ->
  evaluate' owner repo = Fulfilled (r, c, b, l, u) ->
  processUrl' url = [netScoreRecord url r c b l u].
Proof.
  intros Hx He. unfold processUrl.
  destruct (extractOwnerAndRepo_cases url) as [Hn | (o & p & Hs & Ho & Hp)];
    [congruence|].
  rewrite Hx in Hs. injection Hs as <- <-.
  rewrite Hx, Ho, Hp. simpl. rewrite He. reflexivity.
Qed.

Lemma processUrl_rejected (url owner repo : string) (e : error) :
  extractOwnerAndRepo url = (Some owner, Some repo) ->
  evaluate' owner repo = Rejected e ->
  processUrl' url = [].
Proof.
  intros Hx He. unfold processUrl. rewrite Hx.
  destruct (truthy (Some owner) && truthy (Some repo)); [|reflexivity].
  rewrite He. reflexivity.
Qed.

Lemma processUrl_malformed (url : string) :
  extractOwnerAndRepo url = (None, None) -> processUrl' url = [].
Proof.
  intros Hx. unfold processUrl. rewrite Hx. reflexivity.
Qed.

(** What one line prints, by cases. *)
Lemma processUrl_length (url : string) :
  List.length (processUrl' url)
  = if namesRepository url
       && negb (evaluationThrows calculateResponsiveness calculateCorrectness
                  calculateLicenseCompatibility calculateRampUpTime performanceNow
                  octokit url)
    then 1%nat else 0%nat.
Proof.
  unfold namesRepository, evaluationThrows.
  destruct (extractOwnerAndRepo_cases url) as [Hn | (o & p & Hs & Ho & Hp)].
  - rewrite (processUrl_malformed _ Hn), Hn. reflexivity.
  - rewrite Hs, Ho, Hp.
    destruct (evaluate' o p) as [[[[[r c] b] l] u]|e] eqn:He.
    + rewrite (processUrl_fulfilled _ _ _ _ _ _ _ _ Hs He). reflexivity.
    + rewrite (processUrl_rejected _ _ _ _ Hs He). reflexivity.
Qed.

(** The loop prints, line after line, what each line prints on its own. *)
Lemma processLines_flat_map (urls : list string) :
  processLines' urls = flat_map processUrl' urls.
Proof.
  unfold processLines.
  assert (H : forall printed,
             fold_left (fun printed url => printed ++ processUrl' url) urls printed
             = printed ++ flat_map processUrl' urls).
  { induction urls as [|u urls IH]; intros printed; simpl.
    - now rewrite app_nil_r.
    - rewrite IH, app_assoc. reflexivity. }
  apply (H []).
Qed.

End Batch.

End RunFacts.

Import Run RunFacts.

Section NetScore.
Variable calculateResponsiveness : string -> string -> Octokit -> Promise responsivenessResult.
Variable calculateCorrectness : string -> string -> Octokit -> Promise correctnessResult.
Variable calculateLicenseCompatibility : string -> string -> Q -> Octokit -> Promise licenseResult.
Variable calculateRampUpTime : string -> string -> Q -> Octokit -> Promise rampupResult.
Variable performanceNow : string -> string -> Q * Q.
Variable octokit : Octokit.

Local Abbreviation processUrl' :=
  (processUrl calculateResponsiveness calculateCorrectness
              calculateLicenseCompatibility calculateRampUpTime performanceNow octokit).
Local Abbreviation processLines' :=
  (processLines calculateResponsiveness calculateCorrectness
                calculateLicenseCompatibility calculateRampUpTime performanceNow octokit).
Local Abbreviation evaluationThrows' :=
  (evaluationThrows calculateResponsiveness calculateCorrectness
                    calculateLicenseCompatibility calculateRampUpTime performanceNow octokit).

(** C1. For a line that names a repository whose five evaluations all
    fulfil with values in [0,1], the loop prints one record; its NetScore is
    0.40 responsiveness + 0.30 correctness + 0.15 busFactor + 0.10 rampUp
    + 0.05 license on the values clamped from below at 0, which here are
    the values themselves; it lies in [0,1]; the weights add up to 1. *)
Theorem netScore_is_weighted_sum_in_unit_interval :
  forall (url owner repo : string) r c b l u,
    extractOwnerAndRepo url = (Some owner, Some repo) ->
    calculateResponsiveness owner repo octokit = Fulfilled r ->
    calculateCorrectness owner repo octokit = Fulfilled c ->
    calculateBusFactor owner repo 50 octokit
      (fst (performanceNow owner repo)) (snd (performanceNow owner repo)) = Fulfilled b ->
    calculateLicenseCompatibility owner repo 50 octokit = Fulfilled l ->
    calculateRampUpTime owner repo 50 octokit = Fulfilled u ->
    0 <= responsiveness r <= 1 ->
    0 <= correctness c <= 1 ->
    0 <= busfactor b <= 1 ->
    0 <= license l <= 1 ->
    0 <= rampup u <= 1 ->
    exists rec,
      processUrl' url = [rec] /\
      NetScore rec
      = 0.40 * Qmax (responsiveness r) 0 + 0.30 * Qmax (correctness c) 0
        + 0.15 * Qmax (busfactor b) 0 + 0.10 * Qmax (rampup u) 0
        + 0.05 * Qmax (license l) 0 /\
      NetScore rec
      == 0.40 * responsiveness r + 0.30 * correctness c + 0.15 * busfactor b
         + 0.10 * rampup u + 0.05 * license l /\
      0 <= NetScore rec <= 1 /\
      0.40 + 0.30 + 0.15 + 0.10 + 0.05 == 1.
Proof.
  intros url owner repo r c b l u Hx Hr Hc Hb Hl Hu [Hr0 Hr1] [Hc0 Hc1] [Hb0 Hb1] [Hl0 Hl1] [Hu0 Hu1].
  exists (netScoreRecord url r c b l u). split.
  { eapply processUrl_fulfilled; [exact Hx|].
    apply evaluate_fulfilled; assumption. }
  split; [reflexivity|].
  assert (E : NetScore (netScoreRecord url r c b l u)
              == 0.40 * responsiveness r + 0.30 * correctness c + 0.15 * busfactor b
                 + 0.10 * rampup u + 0.05 * license l).
  { simpl.
    rewrite (clamp_nonneg _ Hr0), (clamp_nonneg _ Hc0), (clamp_nonneg _ Hb0),
      (clamp_nonneg _ Hu0), (clamp_nonneg _ Hl0).
    reflexivity. }
  split; [exact E|]. split; [split; rewrite E; lra | reflexivity].
Qed.

(** C5. The NetScore_Latency of a printed record is the plain sum of the
    five latencies the evaluators reported, a failed evaluator adding its
    -1; and there are outcomes with a failure in which the total is
    negative. *)
Theorem netScore_latency_is_plain_sum :
  (forall (url owner repo : string) r c b l u,
      extractOwnerAndRepo url = (Some owner, Some repo) ->
      calculateResponsiveness owner repo octokit = Fulfilled r ->
      calculateCorrectness owner repo octokit = Fulfilled c ->
      calculateBusFactor owner repo 50 octokit
        (fst (performanceNow owner repo)) (snd (performanceNow owner repo)) = Fulfilled b ->
      calculateLicenseCompatibility owner repo 50 octokit = Fulfilled l ->
      calculateRampUpTime owner repo 50 octokit = Fulfilled u ->
      exists rec,
        processUrl' url = [rec] /\
        NetScore_Latency rec
        = responsiveness_latency r + correctness_latency c + busfactory_latency b
          + rampup_latency u + license_latency l) /\
  (forall (url : string) rec,
      In rec (processUrl' url) ->
      NetScore_Latency rec
      = ResponsiveMaintainer_Latency rec + Correctness_Latency rec
        + BusFactor_Latency rec + RampUp_Latency rec + License_Latency rec) /\
  (exists rec,
      processUrl steadyResponsiveness steadyCorrectness steadyLicense steadyRampUp
                 quarterSecond unreachable "https://github.com/acme/gone" = [rec] /\
      BusFactor rec = -1 /\ BusFactor_Latency rec = -1 /\
      NetScore_Latency rec == -0.6 /\
      NetScore_Latency rec < 0).
Proof.
  split; [|split].
  - intros url owner repo r c b l u Hx Hr Hc Hb Hl Hu.
    exists (netScoreRecord url r c b l u). split; [|reflexivity].
    eapply processUrl_fulfilled; [exact Hx|].
    apply evaluate_fulfilled; assumption.
  - intros url rec Hin.
    destruct (extractOwnerAndRepo_cases url) as [Hn | (o & p & Hs & _)].
    + rewrite (processUrl_malformed _ _ _ _ _ _ _ Hn) in Hin. destruct Hin.
    + destruct (evaluate calculateResponsiveness calculateCorrectness
                  calculateLicenseCompatibility calculateRampUpTime performanceNow
                  octokit o p) as [[[[[r c] b] l] u]|e] eqn:He.
      * rewrite (processUrl_fulfilled _ _ _ _ _ _ _ _ _ _ _ _ _ _ Hs He) in Hin.
        destruct Hin as [<-|[]]. reflexivity.
      * rewrite (processUrl_rejected _ _ _ _ _ _ _ _ _ _ Hs He) in Hin. destruct Hin.
  - eexists. split; [reflexivity|]. simpl.
    split; [reflexivity|]. split; [reflexivity|]. split; qcompute.
Qed.

End NetScore.

Section BatchRunner.
Variable calculateResponsiveness : string -> string -> Octokit -> Promise responsivenessResult.
Variable calculateCorrectness : string -> string -> Octokit -> Promise correctnessResult.
Variable calculateLicenseCompatibility : string -> string -> Q -> Octokit -> Promise licenseResult.
Variable calculateRampUpTime : string -> string -> Q -> Octokit -> Promise rampupResult.
Variable performanceNow : string -> string -> Q * Q.
Variable octokit : Octokit.

Local Abbreviation processUrl' :=
  (processUrl calculateResponsiveness calculateCorrectness
              calculateLicenseCompatibility calculateRampUpTime performanceNow octokit).
Local Abbreviation processLines' :=
  (processLines calculateResponsiveness calculateCorrectness
                calculateLicenseCompatibility calculateRampUpTime performanceNow octokit).
Local Abbreviation evaluationThrows' :=
  (evaluationThrows calculateResponsiveness calculateCorrectness
                    calculateLicenseCompatibility calculateRampUpTime performanceNow octokit).

Lemma processLines_app (before after : list string) :
  processLines' (before ++ after) = processLines' before ++ processLines' after.
Proof.
  rewrite !processLines_flat_map. apply flat_map_app.
Qed.

Lemma processLines_length (urls : list string) :
  List.length (processLines' urls)
  = List.length (filter (fun url => namesRepository url && negb (evaluationThrows' url)) urls).
Proof.
  rewrite processLines_flat_map.
  induction urls as [|url urls IH]; simpl; [reflexivity|].
  rewrite length_app, IH, processUrl_length.
  destruct (namesRepository url && negb (evaluationThrows' url)); reflexivity.
Qed.

(** C8. The loop prints exactly one record for each line that names a
    repository and whose evaluation does not throw, and none for any other
    line; a line without a [github.com/<owner>/<repo>] match, or one whose
    evaluation throws, leaves the lines after it to be processed as usual;
    a batch of N repository lines of which one throws prints N - 1
    records. *)
Theorem one_record_per_evaluated_line :
  (forall url : string,
      List.length (processUrl' url)
      = if namesRepository url && negb (evaluationThrows' url) then 1%nat else 0%nat) /\
  (forall url : string, extractOwnerAndRepo url = (None, None) -> processUrl' url = []) /\
  (forall urls : list string,
      List.length (processLines' urls)
      = List.length
          (filter (fun url => namesRepository url && negb (evaluationThrows' url)) urls)) /\
  (forall (before after : list string) (url : string),
      processLines' (before ++ url :: after)
      = processLines' before ++ processUrl' url ++ processLines' after) /\
  (forall (before after : list string) (bad : string),
      (forall url, In url (before ++ after) ->
                   namesRepository url = true /\ evaluationThrows' url = false) ->
      namesRepository bad = true ->
      evaluationThrows' bad = true ->
      List.length (processLines' (before ++ bad :: after))
      = (List.length (before ++ bad :: after) - 1)%nat) /\
  processUrl' "not-a-url" = [].
Proof.
  split; [exact (processUrl_length _ _ _ _ _ _)|].
  split; [exact (processUrl_malformed _ _ _ _ _ _)|].
  split; [exact processLines_length|].
  split; [|split; [|reflexivity]].
  - intros before after url.
    rewrite processLines_app. f_equal.
    change (url :: after) with ([url] ++ after).
    rewrite processLines_app. reflexivity.
  - intros before after bad Hgood Hnames Hthrows.
    rewrite processLines_length, filter_app. simpl.
    rewrite Hnames, Hthrows. simpl.
    assert (Hkeep : forall l, (forall url, In url l ->
                                 namesRepository url = true /\ evaluationThrows' url = false) ->
                              filter (fun url => namesRepository url
                                                 && negb (evaluationThrows' url)) l = l).
    { induction l as [|x l IH]; intros Hl; simpl; [reflexivity|].
      destruct (Hl x (or_introl eq_refl)) as [-> ->]. simpl.
      rewrite IH; [reflexivity|]. intros url Hin. apply Hl. right. exact Hin. }
    rewrite !Hkeep.
    + rewrite !length_app. simpl. lia.
    + intros url Hin. apply Hgood, in_or_app. right. exact Hin.
    + intros url Hin. apply Hgood, in_or_app. left. exact Hin.
Qed.

End BatchRunner.

(** *** Instances *)

Local Open Scope string_scope.

Lemma netScore_is_weighted_sum_in_unit_interval_witness :
  exists rec,
    processUrl steadyResponsiveness steadyCorrectness steadyLicense steadyRampUp
               quarterSecond (respondsWith evenSplit) "https://github.com/nodejs/node"
    = [rec] /\
    NetScore rec == 0.65 /\
    0 <= NetScore rec <= 1.
Proof.
  destruct (netScore_is_weighted_sum_in_unit_interval
              steadyResponsiveness steadyCorrectness steadyLicense steadyRampUp
              quarterSecond (respondsWith evenSplit)
              "https://github.com/nodejs/node" "nodejs" "node"
              {| responsiveness := 0.5; responsiveness_latency := 0.1 |}
              {| correctness := 1; correctness_latency := 0.1 |}
              {| busfactor := 0.5; busfactory_latency := (1250 - 1000) / 1000 |}
              {| license := 1; license_latency := 0.1 |}
              {| rampup := 0.25; rampup_latency := 0.1 |}
              eq_refl eq_refl eq_refl eq_refl eq_refl eq_refl
              ltac:(split; qcompute) ltac:(split; qcompute) ltac:(split; qcompute)
              ltac:(split; qcompute) ltac:(split; qcompute))
    as (rec & Hrec & _ & Hsum & Hrange & _).
  exists rec. split; [exact Hrec|]. split; [|exact Hrange].
  rewrite Hsum. simpl. qcompute.
Defined.

Lemma netScore_latency_is_plain_sum_witness :
  exists rec,
    processUrl steadyResponsiveness steadyCorrectness steadyLicense steadyRampUp
               quarterSecond (respondsWith evenSplit) "https://github.com/nodejs/node"
    = [rec] /\
    NetScore_Latency rec = 0.1 + 0.1 + (1250 - 1000) / 1000 + 0.1 + 0.1.
Proof.
  apply (proj1 (netScore_latency_is_plain_sum
                  steadyResponsiveness steadyCorrectness steadyLicense steadyRampUp
                  quarterSecond (respondsWith evenSplit))
               "https://github.com/nodejs/node" "nodejs" "node"
               {| responsiveness := 0.5; responsiveness_latency := 0.1 |}
               {| correctness := 1; correctness_latency := 0.1 |}
               {| busfactor := 0.5; busfactory_latency := (1250 - 1000) / 1000 |}
               {| license := 1; license_latency := 0.1 |}
               {| rampup := 0.25; rampup_latency := 0.1 |}
               eq_refl eq_refl eq_refl eq_refl eq_refl eq_refl).
Defined.

Lemma one_record_per_evaluated_line_witness :
  List.length (processLines steadyResponsiveness brittleCorrectness steadyLicense
                            steadyRampUp quarterSecond (respondsWith evenSplit)
                            sampleBatch)
  = 2%nat.
Proof.
  apply (proj1 (proj2 (proj2 (proj2 (proj2
           (one_record_per_evaluated_line
              steadyResponsiveness brittleCorrectness steadyLicense steadyRampUp
              quarterSecond (respondsWith evenSplit))))))
         ["https://github.com/nodejs/node"%string]
         ["https://github.com/lodash/lodash"%string]
         "https://github.com/acme/broken"%string).
  - intros url [<-|[<-|[]]]; split; reflexivity.
  - reflexivity.
  - reflexivity.
Defined.

(* ================================================================== *)
(** ** Comparison with binary64 *)

Module Binary64Facts.
Import Binary64.

(** In binary64 too the loop stops at the first running sum whose computed
    percentage passes the test, or at the end of the list. *)
Lemma walk64_exit (th T : spec_float) (cs : list contributor) :
  forall (cum : spec_float) (bf : nat),
    (exists k, (1 <= k <= List.length cs)%nat /\
               walk th T cs cum bf = (bf + k)%nat /\
               geb (percentageOf (runningSum cum cs k) T) th = true /\
               forall j, (1 <= j < k)%nat ->
                         geb (percentageOf (runningSum cum cs j) T) th = false)
    \/ (walk th T cs cum bf = (bf + List.length cs)%nat /\
        forall j, (1 <= j <= List.length cs)%nat ->
                  geb (percentageOf (runningSum cum cs j) T) th = false).
Proof.
  induction cs as [|c rest IH]; intros cum bf.
  - right. simpl. split; [lia | intros j Hj; lia].
  - simpl walk.
    destruct (geb (percentageOf (add cum (ofZ (commits c))) T) th) eqn:Hexit.
    + left. exists 1%nat. simpl List.length.
      split; [lia|]. split; [lia|]. split; [exact Hexit|].
      intros j Hj; lia.
    + destruct (IH (add cum (ofZ (commits c))) (S bf))
        as [(k & Hk & Hw & Hr & Hmin) | (Hw & Hnone)].
      * left. exists (S k). simpl List.length.
        split; [lia|]. split; [rewrite Hw; lia|]. split; [exact Hr|].
        intros [|[|j]] Hj; [lia | exact Hexit |].
        apply (Hmin (S j)). lia.
      * right. simpl List.length. split; [rewrite Hw; lia|].
        intros [|[|j]] Hj; [lia | exact Hexit |].
        apply (Hnone (S j)). simpl in Hj. lia.
Qed.

(** X19. In double precision the counter is the first count, from 1 on,
    whose computed percentage is at least the threshold, and the number of
    contributors when no computed percentage is. *)
Lemma rawBusFactor64_first_exit (data : list contributor) (th : spec_float) :
  let sorted := sort byCommitsDescending data in
  let T := totalCommitsOf sorted in
  (exists k, (1 <= k <= List.length data)%nat /\
             rawBusFactor data th = k /\
             geb (percentageOf (runningSum (ofZ 0) sorted k) T) th = true /\
             forall j, (1 <= j < k)%nat ->
                       geb (percentageOf (runningSum (ofZ 0) sorted j) T) th = false)
  \/ (rawBusFactor data th = List.length data /\
      forall j, (1 <= j <= List.length data)%nat ->
                geb (percentageOf (runningSum (ofZ 0) sorted j) T) th = false).
Proof.
  intros sorted T. unfold rawBusFactor. fold sorted. fold T.
  assert (HL : List.length sorted = List.length data) by apply length_sort.
  destruct (walk64_exit th T sorted (ofZ 0) 0%nat)
    as [(k & Hk & Hw & Hr & Hmin) | (Hw & Hnone)];
    rewrite HL in *.
  - left. exists k. repeat split; try lia; assumption.
  - right. split; [exact Hw | exact Hnone].
Qed.

(** The sample inputs are counted alike in both embeddings. *)
Example samples_agree :
  rawBusFactor evenSplit (ofZ 50) = BusFactor.rawBusFactor evenSplit 50 /\
  rawBusFactor dominated (ofZ 50) = BusFactor.rawBusFactor dominated 50 /\
  rawBusFactor dominated (ofZ 101) = BusFactor.rawBusFactor dominated 101 /\
  rawBusFactor longTail (ofZ 50) = BusFactor.rawBusFactor longTail 50 /\
  rawBusFactor threeLeaders (ofZ 50) = BusFactor.rawBusFactor threeLeaders 50 /\
  rawBusFactor [] (ofZ 50) = BusFactor.rawBusFactor [] 50 /\
  rawBusFactor [anonymous 0; anonymous 0; anonymous 0] (ofZ 50)
  = BusFactor.rawBusFactor [anonymous 0; anonymous 0; anonymous 0] 50.
Proof. repeat split; vm_compute; reflexivity. Qed.

(** Zero divided by zero is NaN, which compares below nothing. *)
Example zero_by_zero :
  percentageOf (ofZ 0) (ofZ 0) = S754_nan /\
  forall th, geb (percentageOf (ofZ 0) (ofZ 0)) th = false.
Proof. split; [reflexivity | intros th; reflexivity]. Qed.

(** Rounding shows on the mark: 29 commits out of 100 come out just under
    29 percent in binary64, so that a threshold of 29 is reached one
    contributor later than in exact arithmetic. *)
Example rounding_on_the_mark :
  geb (percentageOf (ofZ 29) (ofZ 100)) (ofZ 29) = false /\
  rawBusFactor onTheMark (ofZ 29) = 2%nat /\
  BusFactor.rawBusFactor onTheMark 29 = 1%nat.
Proof. repeat split; vm_compute; reflexivity. Qed.

(** The weighted sum of five ones is exactly one, and that of five zeros is
    zero. *)
Example netscore_corners :
  netscore (ofZ 1) (ofZ 1) (ofZ 1) (ofZ 1) (ofZ 1) = ofZ 1 /\
  netscore (ofZ 0) (ofZ 0) (ofZ 0) (ofZ 0) (ofZ 0) = ofZ 0.
Proof. split; vm_compute; reflexivity. Qed.

End Binary64Facts.

(* ================================================================== *)
(** * Further properties of the bus-factor evaluator *)

Module BusFactorMore.
Import BusFactor BusFactorFacts.

(** ** The sort *)

Lemma insert_permutation {A} (cmp : A -> A -> Z) (x : A) (l : list A) :
  Permutation (x :: l) (insert cmp x l).
Proof.
  induction l as [|y l IH]; simpl; [apply Permutation_refl|].
  destruct (cmp x y <=? 0)%Z; [apply Permutation_refl|].
  eapply Permutation_trans; [apply perm_swap|].
  apply perm_skip. exact IH.
Qed.

Lemma sort_permutation {A} (cmp : A -> A -> Z) (l : list A) :
  Permutation l (sort cmp l).
Proof.
  induction l as [|x l IH]; simpl; [constructor|].
  eapply Permutation_trans; [apply perm_skip, IH | apply insert_permutation].
Qed.

Lemma withCommits_insert (n : Z) (x : contributor) (l : list contributor) :
  withCommits n (insert byCommitsDescending x l)
  = if (commits x =? n)%Z then x :: withCommits n l else withCommits n l.
Proof.
  unfold withCommits.
  induction l as [|y l IH]; simpl; [reflexivity|].
  unfold byCommitsDescending at 1.
  destruct (Z.leb_spec (commits y - commits x) 0) as [Hle|Hgt]; simpl.
  - reflexivity.
  - rewrite IH.
    destruct (Z.eqb_spec (commits x) n) as [Hx|Hx];
      destruct (Z.eqb_spec (commits y) n) as [Hy|Hy]; try reflexivity.
    lia.
Qed.

(** X1. The sort of line 34 puts the contributors in non-increasing order
    of commit count, keeps exactly the contributors it was given, and
    leaves contributors with equal counts in the order they came in. *)
Theorem sort_descending_stable_permutation :
  forall data : list contributor,
    descending (sort byCommitsDescending data) /\
    Permutation data (sort byCommitsDescending data) /\
    forall n : Z,
      withCommits n (sort byCommitsDescending data) = withCommits n data.
Proof.
  intros data. split; [apply sort_descending|]. split; [apply sort_permutation|].
  intros n. induction data as [|x data IH]; simpl; [reflexivity|].
  rewrite withCommits_insert, IH. unfold withCommits. simpl.
  destruct (commits x =? n)%Z; reflexivity.
Qed.

(** ** Bounds of the counter *)

Lemma walk_lower (th : Q) (T : Z) (cs : list contributor) :
  forall cum bf, (bf <= walk th T cs cum bf)%nat.
Proof.
  induction cs as [|c rest IH]; intros cum bf; simpl; [lia|].
  destruct (JsNumber.geb _ th); [lia|].
  specialize (IH (cum + commits c)%Z (S bf)). lia.
Qed.

Lemma walk_cons_lower (th : Q) (T : Z) (c : contributor) (rest : list contributor) :
  forall cum bf, (S bf <= walk th T (c :: rest) cum bf)%nat.
Proof.
  intros cum bf. simpl. destruct (JsNumber.geb _ th); [lia | apply walk_lower].
Qed.

Lemma rawBusFactor_le_length (data : list contributor) (th : Q) :
  (rawBusFactor data th <= List.length data)%nat.
Proof.
  unfold rawBusFactor.
  destruct (walk_exit th (totalCommitsOf (sort byCommitsDescending data))
                      (sort byCommitsDescending data) 0%Z 0%nat)
    as [(k & Hk & Hw & _) | (Hw & _)];
    rewrite length_sort in *; lia.
Qed.

Lemma rawBusFactor_positive (data : list contributor) (th : Q) :
  data <> [] -> (1 <= rawBusFactor data th)%nat.
Proof.
  intros Hne. unfold rawBusFactor.
  pose proof (length_sort byCommitsDescending data) as HL.
  destruct (sort byCommitsDescending data) as [|c rest] eqn:E.
  - destruct data; [congruence | discriminate HL].
  - apply walk_cons_lower.
Qed.

(** X2. Whatever the threshold and the counts, the loop leaves a counter
    between 1 and the number of contributors when there is a contributor,
    and 0 when there is none. *)
Theorem rawBusFactor_bounds :
  forall (data : list contributor) (th : Q),
    (rawBusFactor data th <= List.length data)%nat /\
    (data <> [] -> (1 <= rawBusFactor data th)%nat) /\
    (data = [] -> rawBusFactor data th = 0%nat).
Proof.
  intros data th. split; [|split].
  - apply rawBusFactor_le_length.
  - apply rawBusFactor_positive.
  - intros ->. reflexivity.
Qed.

Lemma rawBusFactor_bounds_witness :
  (1 <= rawBusFactor dominated 50)%nat.
Proof.
  apply (proj1 (proj2 (rawBusFactor_bounds dominated 50))). discriminate.
Defined.

Lemma scaledBusFactorOf_mono (a b : nat) :
  (a <= b)%nat -> scaledBusFactorOf a <= scaledBusFactorOf b.
Proof.
  intros Hab. unfold scaledBusFactorOf.
  destruct (Nat.leb_spec a 2); destruct (Nat.leb_spec b 2); try lia;
    destruct (Nat.leb_spec a 4); destruct (Nat.leb_spec b 4); try lia;
    destruct (Nat.leb_spec a 6); destruct (Nat.leb_spec b 6); try lia;
    destruct (Nat.leb_spec a 8); destruct (Nat.leb_spec b 8); try lia;
    qcompute.
Qed.

(** X3. The score cannot exceed what the number of contributors allows:
    it is at most the scaled head count; a repository with one or two
    contributors scores 0 at every threshold, and a score of 1 takes at
    least nine contributors. *)
Theorem score_capped_by_head_count :
  forall owner repo threshold octokit startTime endTime data,
    listContributors octokit owner repo = Fulfilled data ->
    exists r,
      calculateBusFactor owner repo threshold octokit startTime endTime = Fulfilled r /\
      busfactor r <= scaledBusFactorOf (List.length data) /\
      ((List.length data <= 2)%nat -> busfactor r = 0) /\
      (busfactor r == 1 -> (9 <= List.length data)%nat).
Proof.
  intros owner repo threshold octokit startTime endTime data Hfetch.
  destruct (calculateBusFactor_outcome owner repo threshold octokit startTime endTime)
    as [(e & He & _) | (data' & Hd & Hr)]; [congruence|].
  rewrite Hfetch in Hd. injection Hd as <-.
  eexists. split; [exact Hr|]. simpl.
  pose proof (rawBusFactor_le_length data threshold) as Hle.
  split; [apply scaledBusFactorOf_mono, Hle|]. split.
  - intros Hlen. unfold scaledBusFactorOf.
    destruct (Nat.leb_spec (rawBusFactor data threshold) 2); [reflexivity | lia].
  - unfold scaledBusFactorOf.
    destruct (Nat.leb_spec (rawBusFactor data threshold) 2); [qcompute|].
    destruct (Nat.leb_spec (rawBusFactor data threshold) 4); [qcompute|].
    destruct (Nat.leb_spec (rawBusFactor data threshold) 6); [qcompute|].
    destruct (Nat.leb_spec (rawBusFactor data threshold) 8); [qcompute|].
    intros _. lia.
Qed.

Lemma score_capped_by_head_count_witness :
  exists r,
    calculateBusFactor "acme" "duo" 50
      (respondsWith [anonymous 7; anonymous 5]) 1000 1250 = Fulfilled r /\
    busfactor r = 0.
Proof.
  destruct (score_capped_by_head_count "acme" "duo" 50
              (respondsWith [anonymous 7; anonymous 5]) 1000 1250
              [anonymous 7; anonymous 5] eq_refl)
    as (r & Hr & _ & Hzero & _).
  exists r. split; [exact Hr|]. apply Hzero. simpl. lia.
Defined.

(** ** The threshold *)

Lemma geb_threshold_mono (x : JsNumber.number) (th1 th2 : Q) :
  th1 <= th2 -> JsNumber.geb x th2 = true -> JsNumber.geb x th1 = true.
Proof.
  intros H. destruct x as [q| | |]; simpl; auto.
  rewrite !Qle_bool_iff. intros H2. eapply Qle_trans; eassumption.
Qed.

Lemma walk_threshold_mono (th1 th2 : Q) (T : Z) (cs : list contributor) :
  th1 <= th2 ->
  forall cum bf, (walk th1 T cs cum bf <= walk th2 T cs cum bf)%nat.
Proof.
  intros H. induction cs as [|c rest IH]; intros cum bf; simpl; [lia|].
  destruct (JsNumber.geb (percentageOf (cum + commits c) T) th2) eqn:E2.
  - rewrite (geb_threshold_mono _ _ _ H E2). lia.
  - destruct (JsNumber.geb (percentageOf (cum + commits c) T) th1).
    + apply walk_lower.
    + apply IH.
Qed.

(** X4. Raising the threshold never lowers the counter nor the score: for
    the same contributors, a larger threshold gives a raw bus factor and a
    scaled value at least as large. *)
Theorem rawBusFactor_monotone_in_threshold :
  forall (data : list contributor) (th1 th2 : Q),
    th1 <= th2 ->
    (rawBusFactor data th1 <= rawBusFactor data th2)%nat /\
    scaledBusFactorOf (rawBusFactor data th1)
    <= scaledBusFactorOf (rawBusFactor data th2).
Proof.
  intros data th1 th2 H.
  assert (Hraw : (rawBusFactor data th1 <= rawBusFactor data th2)%nat).
  { unfold rawBusFactor. apply walk_threshold_mono. exact H. }
  split; [exact Hraw | apply scaledBusFactorOf_mono, Hraw].
Qed.

Lemma rawBusFactor_monotone_in_threshold_witness :
  (rawBusFactor evenSplit 50 <= rawBusFactor evenSplit 75)%nat.
Proof.
  apply (rawBusFactor_monotone_in_threshold evenSplit 50 75). qcompute.
Defined.

(** ** Order and names of the contributors *)

Lemma descending_tail (c : contributor) (l : list contributor) :
  descending (c :: l) -> descending l.
Proof. inversion 1; subst; [constructor | assumption]. Qed.

Lemma descending_head_max (l : list contributor) :
  forall c, descending (c :: l) ->
            forall n, In n (map commits l) -> (n <= commits c)%Z.
Proof.
  induction l as [|d l IH]; intros c Hd n Hin; [destruct Hin|].
  inversion Hd as [| |c' d' l' Hcd Htl]; subst.
  destruct Hin as [<-|Hin]; [exact Hcd|].
  specialize (IH d Htl n Hin). lia.
Qed.

(** Two non-increasing arrangements of the same counts coincide. *)
Lemma descending_commits_unique (l : list contributor) :
  forall l', descending l -> descending l' ->
             Permutation (map commits l) (map commits l') ->
             map commits l = map commits l'.
Proof.
  induction l as [|c t IH]; intros l' Hl Hl' HP.
  - simpl in *. apply Permutation_nil in HP. symmetry. exact HP.
  - destruct l' as [|c' t'].
    + simpl in HP. apply Permutation_sym, Permutation_nil in HP. discriminate HP.
    + simpl in *.
      assert (Hc : commits c = commits c').
      { assert (H1 : In (commits c) (commits c' :: map commits t')).
        { eapply Permutation_in; [exact HP | left; reflexivity]. }
        assert (H2 : In (commits c') (commits c :: map commits t)).
        { eapply Permutation_in; [apply Permutation_sym, HP | left; reflexivity]. }
        destruct H1 as [H1|H1]; [congruence|].
        destruct H2 as [H2|H2]; [congruence|].
        pose proof (descending_head_max _ _ Hl' _ H1).
        pose proof (descending_head_max _ _ Hl _ H2).
        lia. }
      rewrite Hc in *. f_equal.
      apply IH.
      * eapply descending_tail; eassumption.
      * eapply descending_tail; eassumption.
      * eapply Permutation_cons_inv; eassumption.
Qed.

Lemma walk_commits_only (th : Q) (T : Z) (cs : list contributor) :
  forall cs' cum bf,
    map commits cs = map commits cs' ->
    walk th T cs cum bf = walk th T cs' cum bf.
Proof.
  induction cs as [|c rest IH]; intros [|c' rest'] cum bf H;
    simpl in *; try discriminate; [reflexivity|].
  injection H as Hc Hrest. rewrite Hc.
  destruct (JsNumber.geb _ th); [reflexivity|].
  apply IH. exact Hrest.
Qed.

Lemma sumCommits_map (l : list contributor) :
  sumCommits l = fold_right Z.add 0%Z (map commits l).
Proof. induction l as [|c l IH]; simpl; [reflexivity | now rewrite IH]. Qed.

Lemma sum_permutation (l l' : list Z) :
  Permutation l l' -> fold_right Z.add 0%Z l = fold_right Z.add 0%Z l'.
Proof.
  induction 1; simpl; try lia.
Qed.

(** X5. The raw bus factor depends on the commit counts alone: neither
    the order in which the contributors are listed nor their logins
    matter. *)
Theorem rawBusFactor_order_independent :
  forall (data data' : list contributor) (th : Q),
    Permutation (map commits data) (map commits data') ->
    rawBusFactor data th = rawBusFactor data' th.
Proof.
  intros data data' th HP. unfold rawBusFactor.
  rewrite !totalCommitsOf_sort, !totalCommitsOf_sum, !sumCommits_map.
  rewrite (sum_permutation _ _ HP).
  apply walk_commits_only.
  apply descending_commits_unique; try apply sort_descending.
  eapply Permutation_trans;
    [apply Permutation_sym, Permutation_map, sort_permutation|].
  eapply Permutation_trans; [exact HP|].
  apply Permutation_map, sort_permutation.
Qed.

Lemma rawBusFactor_order_independent_witness :
  rawBusFactor [ {| login := "ann"; commits := 3 |};
                 {| login := "bob"; commits := 40 |};
                 {| login := "eve"; commits := 7 |} ] 50
  = rawBusFactor [ {| login := "x"; commits := 40 |};
                   {| login := "y"; commits := 3 |};
                   {| login := "z"; commits := 7 |} ] 50.
Proof.
  apply rawBusFactor_order_independent. simpl.
  apply perm_swap.
Defined.

(** ** Scaling every count *)

Lemma insert_scale (k : Z) (x : contributor) (l : list contributor) :
  (0 < k)%Z ->
  insert byCommitsDescending (scaleCommits k x) (map (scaleCommits k) l)
  = map (scaleCommits k) (insert byCommitsDescending x l).
Proof.
  intros Hk. induction l as [|y l IH]; simpl; [reflexivity|].
  unfold byCommitsDescending at 1 3. simpl.
  destruct (Z.leb_spec (k * commits y - k * commits x) 0);
    destruct (Z.leb_spec (commits y - commits x) 0); try nia.
  - reflexivity.
  - simpl. rewrite IH. reflexivity.
Qed.

Lemma sort_scale (k : Z) (l : list contributor) :
  (0 < k)%Z ->
  sort byCommitsDescending (map (scaleCommits k) l)
  = map (scaleCommits k) (sort byCommitsDescending l).
Proof.
  intros Hk. induction l as [|x l IH]; simpl; [reflexivity|].
  rewrite IH. apply insert_scale. exact Hk.
Qed.

Lemma sumCommits_scale (k : Z) (l : list contributor) :
  sumCommits (map (scaleCommits k) l) = (k * sumCommits l)%Z.
Proof.
  induction l as [|x l IH]; simpl; [lia|]. rewrite IH. lia.
Qed.

Lemma Qle_bool_compat (t q1 q2 : Q) : q1 == q2 -> Qle_bool t q1 = Qle_bool t q2.
Proof.
  intros E.
  destruct (Qle_bool t q1) eqn:E1; destruct (Qle_bool t q2) eqn:E2; try reflexivity.
  - apply Qle_bool_iff in E1. rewrite E in E1. apply Qle_bool_iff in E1. congruence.
  - apply Qle_bool_iff in E2. rewrite <- E in E2. apply Qle_bool_iff in E2. congruence.
Qed.

Lemma reaches_scale (k : Z) (th : Q) (T c : Z) :
  (0 < k)%Z -> reaches th (k * T) (k * c) = reaches th T c.
Proof.
  intros Hk. unfold reaches, percentageOf, JsNumber.div.
  destruct (Z.eqb_spec T 0) as [->|HT].
  - replace (k * 0)%Z with 0%Z by lia. simpl.
    destruct (Z.ltb_spec 0 (k * c)); destruct (Z.ltb_spec 0 c); try nia; try reflexivity.
    destruct (Z.ltb_spec (k * c) 0); destruct (Z.ltb_spec c 0); try nia; reflexivity.
  - destruct (Z.eqb_spec (k * T) 0) as [E|_]; [nia|]. simpl.
    apply Qle_bool_compat. rewrite !inject_Z_mult. field. split.
    + intros H. unfold Qeq in H; simpl in H. lia.
    + intros H. unfold Qeq in H; simpl in H. lia.
Qed.

Lemma walk_scale (k : Z) (th : Q) (T : Z) (cs : list contributor) :
  (0 < k)%Z ->
  forall cum bf,
    walk th (k * T) (map (scaleCommits k) cs) (k * cum) bf = walk th T cs cum bf.
Proof.
  intros Hk. induction cs as [|c rest IH]; intros cum bf; simpl; [reflexivity|].
  replace (k * cum + k * commits c)%Z with (k * (cum + commits c))%Z by lia.
  pose proof (reaches_scale k th T (cum + commits c) Hk) as E.
  unfold reaches in E. rewrite E.
  destruct (JsNumber.geb (percentageOf (cum + commits c) T) th); [reflexivity|].
  apply IH.
Qed.

(** X6. Multiplying every commit count by the same positive factor leaves
    the raw bus factor as it was: only the proportions count. *)
Theorem rawBusFactor_scale_invariant :
  forall (k : Z) (data : list contributor) (th : Q),
    (0 < k)%Z ->
    rawBusFactor (map (scaleCommits k) data) th = rawBusFactor data th.
Proof.
  intros k data th Hk. unfold rawBusFactor.
  rewrite sort_scale by exact Hk.
  rewrite !totalCommitsOf_sum, sumCommits_scale.
  replace 0%Z with (k * 0)%Z at 1 by lia.
  apply walk_scale. exact Hk.
Qed.

Lemma rawBusFactor_scale_invariant_witness :
  rawBusFactor (map (scaleCommits 12) dominated) 50 = rawBusFactor dominated 50.
Proof.
  apply rawBusFactor_scale_invariant. lia.
Defined.

End BusFactorMore.

(* ================================================================== *)
(** * Further properties of the batch runner *)

Module RunMore.
Import BusFactor Run RunFacts.
Local Open Scope string_scope.

(** ** The pattern *)

Lemma literal_sound (lit s rest : string) :
  literal lit s = Some rest -> s = lit ++ rest.
Proof.
  revert s; induction lit as [|a lit IH]; intros s; simpl.
  - intros H; injection H as <-. reflexivity.
  - destruct s as [|b s]; [discriminate|].
    destruct (Ascii.eqb_spec a b) as [<-|]; [|discriminate].
    intros H. rewrite (IH _ H). reflexivity.
Qed.

Lemma nonSlashes_sound (s : string) :
  forall run rest,
    nonSlashes s = (run, rest) ->
    s = run ++ rest /\ without slash run = true /\ pathOrEnd rest = true.
Proof.
  induction s as [|c s IH]; intros run rest; simpl.
  - intros H; injection H as <- <-. auto.
  - destruct (Ascii.eqb c slash) eqn:E.
    + intros H; injection H as <- <-. simpl. rewrite E. auto.
    + destruct (nonSlashes s) as [run' rest'].
      intros H; injection H as <- <-.
      destruct (IH _ _ eq_refl) as (-> & Hrun & Hrest).
      simpl. rewrite E. auto.
Qed.

Lemma matchHere_sound (s owner repo : string) :
  matchHere s = Some (owner, repo) ->
  exists post,
    s = "github.com/" ++ owner ++ "/" ++ repo ++ post /\
    without slash owner = true /\ without slash repo = true /\
    pathOrEnd post = true.
Proof.
  unfold matchHere.
  destruct (literal _ s) as [afterHost|] eqn:EL; [|discriminate].
  destruct (nonSlashes afterHost) as [group1 afterOwner] eqn:E1.
  destruct (isEmpty group1); [discriminate|].
  destruct afterOwner as [|c afterSlash]; [discriminate|].
  destruct (Ascii.eqb_spec c slash) as [->|]; [|discriminate].
  destruct (nonSlashes afterSlash) as [group2 post] eqn:E2.
  destruct (isEmpty group2); [discriminate|].
  intros H; injection H as <- <-.
  apply literal_sound in EL.
  destruct (nonSlashes_sound _ _ _ E1) as (H1 & Hn1 & _).
  destruct (nonSlashes_sound _ _ _ E2) as (H2 & Hn2 & Hp).
  exists post. subst. auto.
Qed.

Lemma matchPattern_sound (url owner repo : string) :
  matchPattern url = Some (owner, repo) ->
  exists pre post,
    url = pre ++ "github.com/" ++ owner ++ "/" ++ repo ++ post /\
    without slash owner = true /\ without slash repo = true /\
    pathOrEnd post = true.
Proof.
  induction url as [|a url IH]; rewrite matchPattern_eq.
  - destruct (matchHere "") as [[o r]|] eqn:E; [|discriminate].
    intros H; injection H as <- <-.
    destruct (matchHere_sound _ _ _ E) as (post & H & Hrest).
    exists "", post. auto.
  - destruct (matchHere (String a url)) as [[o r]|] eqn:E.
    + intros H; injection H as <- <-.
      destruct (matchHere_sound _ _ _ E) as (post & H & Hrest).
      exists "", post. auto.
    + intros H. destruct (IH H) as (pre & post & -> & Hrest).
      exists (String a pre), post. auto.
Qed.

(** X8. [extractOwnerAndRepo] answers with two nulls or with two strings;
    in the second case both are non-empty and free of slashes, and the URL
    reads [... github.com/<owner>/<repo>] followed by nothing or by a
    slash. *)
Theorem extractOwnerAndRepo_sound :
  forall url : string,
    extractOwnerAndRepo url = (None, None)
    \/ exists owner repo pre post,
        extractOwnerAndRepo url = (Some owner, Some repo) /\
        url = pre ++ "github.com/" ++ owner ++ "/" ++ repo ++ post /\
        isEmpty owner = false /\ isEmpty repo = false /\
        without slash owner = true /\ without slash repo = true /\
        pathOrEnd post = true.
Proof.
  intros url. unfold extractOwnerAndRepo.
  destruct (matchPattern url) as [[owner repo]|] eqn:E; [right | left; reflexivity].
  destruct (matchPattern_groups _ _ _ E) as [H1 H2].
  destruct (matchPattern_sound _ _ _ E) as (pre & post & Hurl & Ho & Hr & Hp).
  exists owner, repo, pre, post. auto 10.
Qed.

Lemma nonSlashes_complete (run rest : string) :
  without slash run = true -> pathOrEnd rest = true ->
  nonSlashes (run ++ rest) = (run, rest).
Proof.
  intros Hrun Hrest. induction run as [|c run IH]; simpl in *.
  - destruct rest as [|a rest]; [reflexivity|]. simpl in Hrest. simpl.
    rewrite Hrest. reflexivity.
  - apply andb_prop in Hrun as [Hc Hrun].
    apply negb_true_iff in Hc. rewrite Hc, (IH Hrun). reflexivity.
Qed.

Lemma literal_complete (lit rest : string) :
  literal lit (lit ++ rest) = Some rest.
Proof.
  induction lit as [|a lit IH]; simpl.
  - destruct rest; reflexivity.
  - rewrite Ascii.eqb_refl. exact IH.
Qed.

Lemma matchHere_complete (owner repo post : string) :
  isEmpty owner = false -> isEmpty repo = false ->
  without slash owner = true -> without slash repo = true ->
  pathOrEnd post = true ->
  matchHere ("github.com/" ++ owner ++ "/" ++ repo ++ post) = Some (owner, repo).
Proof.
  intros Ho Hr Hno Hnr Hp. unfold matchHere.
  rewrite literal_complete. cbv beta iota.
  rewrite (nonSlashes_complete owner ("/" ++ repo ++ post) Hno eq_refl), Ho.
  change ("/" ++ repo ++ post) with (String slash (repo ++ post)).
  cbv beta iota. rewrite Ascii.eqb_refl.
  rewrite (nonSlashes_complete repo post Hnr Hp), Hr. reflexivity.
Qed.

Lemma literal_head (a b : ascii) (lit s : string) :
  Ascii.eqb a b = false -> literal (String a lit) (String b s) = None.
Proof. intros H. simpl. rewrite H. reflexivity. Qed.

(** A prefix without the letter g cannot begin a match. *)
Lemma matchPattern_skip (pre s : string) :
  without "g"%char pre = true ->
  matchPattern (pre ++ s) = matchPattern s.
Proof.
  intros Hpre. induction pre as [|a pre IH]; [reflexivity|].
  simpl in Hpre. apply andb_prop in Hpre as [Ha Hpre].
  apply negb_true_iff in Ha.
  rewrite matchPattern_eq.
  assert (E : matchHere (String a pre ++ s) = None).
  { unfold matchHere.
    change (String a pre ++ s) with (String a (pre ++ s)).
    rewrite literal_head; [reflexivity|].
    rewrite Ascii.eqb_sym. exact Ha. }
  rewrite E. simpl. apply IH. exact Hpre.
Qed.

(** X9. A URL built from a repository is read back: for a non-empty,
    slash-free owner and repository name, a prefix without the letter g
    (such as [https://]) and a rest that is empty or starts with a slash,
    [extractOwnerAndRepo] returns that owner and that name. *)
Theorem extractOwnerAndRepo_round_trip :
  forall pre owner repo post : string,
    without "g"%char pre = true ->
    isEmpty owner = false -> isEmpty repo = false ->
    without slash owner = true -> without slash repo = true ->
    pathOrEnd post = true ->
    extractOwnerAndRepo (pre ++ "github.com/" ++ owner ++ "/" ++ repo ++ post)
    = (Some owner, Some repo).
Proof.
  intros pre owner repo post Hpre Ho Hr Hno Hnr Hp.
  unfold extractOwnerAndRepo.
  rewrite matchPattern_skip by exact Hpre.
  rewrite matchPattern_eq, (matchHere_complete owner repo post Ho Hr Hno Hnr Hp).
  reflexivity.
Qed.

Lemma extractOwnerAndRepo_round_trip_witness :
  extractOwnerAndRepo "https://www.github.com/rocq-prover/rocq/tree/master"
  = (Some "rocq-prover", Some "rocq").
Proof.
  apply (extractOwnerAndRepo_round_trip "https://www." "rocq-prover" "rocq" "/tree/master");
    reflexivity.
Defined.

(** ** The lines of the URL file *)

Lemma split_not_nil (s : string) : split s <> [].
Proof.
  induction s as [|c s IH]; simpl; [discriminate|].
  destruct (Ascii.eqb c newline); [discriminate|].
  destruct (split s); discriminate.
Qed.

Lemma joinLines_cons (line : string) (rest : list string) :
  rest <> [] -> joinLines (line :: rest) = line ++ String newline (joinLines rest).
Proof. destruct rest; [congruence | reflexivity]. Qed.

Lemma joinLines_split (s : string) : joinLines (split s) = s.
Proof.
  induction s as [|c s IH]; [reflexivity|]. simpl split.
  destruct (Ascii.eqb_spec c newline) as [->|Hc].
  - rewrite joinLines_cons by apply split_not_nil. rewrite IH. reflexivity.
  - pose proof (split_not_nil s) as Hne.
    destruct (split s) as [|line lines]; [congruence|].
    destruct lines as [|l2 lines].
    + simpl in *. congruence.
    + rewrite joinLines_cons by discriminate.
      rewrite joinLines_cons in IH by discriminate.
      rewrite <- IH. reflexivity.
Qed.

Lemma split_line (line : string) :
  without newline line = true -> split line = [line].
Proof.
  induction line as [|c line IH]; simpl; [reflexivity|].
  intros H. apply andb_prop in H as [Hc Hl]. apply negb_true_iff in Hc.
  rewrite Hc, (IH Hl). reflexivity.
Qed.

Lemma split_line_newline (line rest : string) :
  without newline line = true ->
  split (line ++ String newline rest) = line :: split rest.
Proof.
  induction line as [|c line IH]; simpl.
  - intros _. reflexivity.
  - intros H. apply andb_prop in H as [Hc Hl]. apply negb_true_iff in Hc.
    rewrite Hc, (IH Hl). reflexivity.
Qed.

Lemma split_joinLines (lines : list string) :
  lines <> [] ->
  Forall (fun line => without newline line = true) lines ->
  split (joinLines lines) = lines.
Proof.
  induction lines as [|line rest IH]; [congruence|].
  intros _ Hall. inversion Hall as [|? ? Hline Hrest]; subst.
  destruct rest as [|l2 rest].
  - simpl. apply split_line. exact Hline.
  - rewrite joinLines_cons by discriminate.
    rewrite split_line_newline by exact Hline.
    rewrite IH; [reflexivity | discriminate | exact Hrest].
Qed.

Lemma split_without_newline (s : string) :
  Forall (fun line => without newline line = true) (split s).
Proof.
  induction s as [|c s IH]; simpl; [repeat constructor|].
  destruct (Ascii.eqb c newline) eqn:Hc.
  - constructor; [reflexivity | exact IH].
  - destruct (split s) as [|line lines]; [repeat constructor; simpl; now rewrite Hc|].
    inversion IH as [|? ? Hline Hrest]; subst.
    constructor; [simpl; rewrite Hc, Hline; reflexivity | exact Hrest].
Qed.

Lemma readUrls_joinLines (lines : list string) :
  Forall (fun line => without newline line = true) lines ->
  readUrls (joinLines lines) = filter (fun line => negb (isEmpty line)) lines.
Proof.
  intros Hall. unfold readUrls.
  destruct lines as [|line rest]; [reflexivity|].
  rewrite split_joinLines; [reflexivity | discriminate | exact Hall].
Qed.

(** X10. Reading the URL file loses nothing but blank lines.  Splitting
    at newlines and joining again gives the contents back; the lines handed
    to the loop are non-empty and hold no newline; and a file written as
    newline-free lines joined by newlines is read back as those lines, the
    empty ones dropped. *)
Theorem readUrls_lines :
  (forall contents : string, joinLines (split contents) = contents) /\
  (forall contents : string,
      Forall (fun line => isEmpty line = false /\ without newline line = true)
             (readUrls contents)) /\
  (forall lines : list string,
      Forall (fun line => without newline line = true) lines ->
      readUrls (joinLines lines) = filter (fun line => negb (isEmpty line)) lines).
Proof.
  split; [exact joinLines_split|]. split.
  - intros contents. unfold readUrls.
    pose proof (split_without_newline contents) as H.
    induction H as [|line lines Hline _ IH]; simpl; [constructor|].
    destruct (isEmpty line) eqn:E; simpl; [exact IH|].
    constructor; [split; assumption | exact IH].
  - exact readUrls_joinLines.
Qed.

Lemma readUrls_lines_witness :
  readUrls (joinLines ["https://github.com/a/b"; ""; "not-a-url"; ""])
  = ["https://github.com/a/b"; "not-a-url"].
Proof.
  apply (proj2 (proj2 readUrls_lines)
               ["https://github.com/a/b"; ""; "not-a-url"; ""]).
  repeat constructor.
Defined.

(** ** The weighted sum *)

Lemma clamp_upper (x : Q) : x <= 1 -> clamp x <= 1.
Proof. intros H. unfold clamp. apply Q.max_lub; [exact H | qcompute]. Qed.

Lemma clamp_nonpos (x : Q) : x <= 0 -> clamp x == 0.
Proof. intros H. unfold clamp. apply Q.max_r. exact H. Qed.

Lemma clamp_mono (x y : Q) : x <= y -> clamp x <= clamp y.
Proof. intros H. unfold clamp. apply Q.max_le_compat_r. exact H. Qed.

Lemma netScore_nonneg (url : string) r c b l u :
  0 <= NetScore (netScoreRecord url r c b l u).
Proof.
  simpl.
  pose proof (clamp_lower (responsiveness r)).
  pose proof (clamp_lower (correctness c)).
  pose proof (clamp_lower (busfactor b)).
  pose proof (clamp_lower (license l)).
  pose proof (clamp_lower (rampup u)).
  lra.
Qed.

(** X11. Whatever the five evaluators report, failures included, the
    NetScore is never negative; it is at most 1 when no value exceeds 1,
    and it is 0 when no value is positive, as when all five fail. *)
Theorem netScore_bounds :
  forall (url : string) r c b l u,
    0 <= NetScore (netScoreRecord url r c b l u) /\
    (responsiveness r <= 1 -> correctness c <= 1 -> busfactor b <= 1 ->
     license l <= 1 -> rampup u <= 1 ->
     NetScore (netScoreRecord url r c b l u) <= 1) /\
    (responsiveness r <= 0 -> correctness c <= 0 -> busfactor b <= 0 ->
     license l <= 0 -> rampup u <= 0 ->
     NetScore (netScoreRecord url r c b l u) == 0).
Proof.
  intros url r c b l u. simpl.
  pose proof (clamp_lower (responsiveness r)).
  pose proof (clamp_lower (correctness c)).
  pose proof (clamp_lower (busfactor b)).
  pose proof (clamp_lower (license l)).
  pose proof (clamp_lower (rampup u)).
  split; [lra|]. split.
  - intros Hr Hc Hb Hl Hu.
    apply clamp_upper in Hr, Hc, Hb, Hl, Hu. lra.
  - intros Hr Hc Hb Hl Hu.
    apply clamp_nonpos in Hr, Hc, Hb, Hl, Hu. lra.
Qed.

Lemma netScore_bounds_witness :
  NetScore (netScoreRecord "u"
              {| responsiveness := -1; responsiveness_latency := -1 |}
              {| correctness := -1; correctness_latency := -1 |}
              failure
              {| license := -1; license_latency := -1 |}
              {| rampup := -1; rampup_latency := -1 |}) == 0.
Proof.
  apply (proj2 (proj2 (netScore_bounds "u"
              {| responsiveness := -1; responsiveness_latency := -1 |}
              {| correctness := -1; correctness_latency := -1 |}
              failure
              {| license := -1; license_latency := -1 |}
              {| rampup := -1; rampup_latency := -1 |})));
    qcompute.
Defined.

(** X12. The NetScore is monotonic: results whose five values are each at
    least as large give a NetScore at least as large. *)
Theorem netScore_monotone :
  forall (url url' : string) r c b l u r' c' b' l' u',
    responsiveness r <= responsiveness r' ->
    correctness c <= correctness c' ->
    busfactor b <= busfactor b' ->
    license l <= license l' ->
    rampup u <= rampup u' ->
    NetScore (netScoreRecord url r c b l u)
    <= NetScore (netScoreRecord url' r' c' b' l' u').
Proof.
  intros url url' r c b l u r' c' b' l' u' Hr Hc Hb Hl Hu. simpl.
  apply clamp_mono in Hr, Hc, Hb, Hl, Hu. lra.
Qed.

Lemma netScore_monotone_witness :
  NetScore (netScoreRecord "u"
              {| responsiveness := 0.5; responsiveness_latency := 0.1 |}
              {| correctness := 1; correctness_latency := 0.1 |}
              failure
              {| license := 1; license_latency := 0.1 |}
              {| rampup := 0.25; rampup_latency := 0.1 |})
  <= NetScore (netScoreRecord "u"
              {| responsiveness := 0.5; responsiveness_latency := 0.1 |}
              {| correctness := 1; correctness_latency := 0.1 |}
              {| busfactor := 0.5; busfactory_latency := 0.25 |}
              {| license := 1; license_latency := 0.1 |}
              {| rampup := 0.25; rampup_latency := 0.1 |}).
Proof.
  apply netScore_monotone; qcompute.
Defined.

(** ** Records of the batch *)

Section Records.
Variable calculateResponsiveness : string -> string -> Octokit -> Promise responsivenessResult.
Variable calculateCorrectness : string -> string -> Octokit -> Promise correctnessResult.
Variable calculateLicenseCompatibility : string -> string -> Q -> Octokit -> Promise licenseResult.
Variable calculateRampUpTime : string -> string -> Q -> Octokit -> Promise rampupResult.
Variable performanceNow : string -> string -> Q * Q.
Variable octokit : Octokit.

Local Abbreviation evaluate' :=
  (evaluate calculateResponsiveness calculateCorrectness
            calculateLicenseCompatibility calculateRampUpTime performanceNow octokit).
Local Abbreviation processUrl' :=
  (processUrl calculateResponsiveness calculateCorrectness
              calculateLicenseCompatibility calculateRampUpTime performanceNow octokit).
Local Abbreviation processLines' :=
  (processLines calculateResponsiveness calculateCorrectness
                calculateLicenseCompatibility calculateRampUpTime performanceNow octokit).
Local Abbreviation evaluationThrows' :=
  (evaluationThrows calculateResponsiveness calculateCorrectness
                    calculateLicenseCompatibility calculateRampUpTime performanceNow octokit).

(** X13. A failure of the contributor request degrades the record, it does
    not suppress it: when the other four evaluations fulfil, the line still
    prints one record, with BusFactor and BusFactor_Latency at -1, a
    NetScore made of the other four weighted values only, hence at most
    0.85 when none of them exceeds 1, and a total latency one second short
    of the sum of the other four latencies. *)
Theorem failed_bus_factor_degrades_record :
  forall (url owner repo : string) (e : error) r c l u,
    extractOwnerAndRepo url = (Some owner, Some repo) ->
    listContributors octokit owner repo = Rejected e ->
    calculateResponsiveness owner repo octokit = Fulfilled r ->
    calculateCorrectness owner repo octokit = Fulfilled c ->
    calculateLicenseCompatibility owner repo 50 octokit = Fulfilled l ->
    calculateRampUpTime owner repo 50 octokit = Fulfilled u ->
    exists rec,
      processUrl' url = [rec] /\
      BusFactor rec = -1 /\
      BusFactor_Latency rec = -1 /\
      NetScore rec
      == 0.40 * Qmax (responsiveness r) 0 + 0.30 * Qmax (correctness c) 0
         + 0.10 * Qmax (rampup u) 0 + 0.05 * Qmax (license l) 0 /\
      (responsiveness r <= 1 -> correctness c <= 1 ->
       license l <= 1 -> rampup u <= 1 -> NetScore rec <= 0.85) /\
      NetScore_Latency rec
      == responsiveness_latency r + correctness_latency c
         + rampup_latency u + license_latency l - 1.
Proof.
  intros url owner repo e r c l u Hx He Hr Hc Hl Hu.
  exists (netScoreRecord url r c failure l u).
  split.
  { eapply processUrl_fulfilled; [exact Hx|].
    apply evaluate_fulfilled; try assumption.
    destruct (calculateBusFactor_outcome owner repo 50 octokit
                (fst (performanceNow owner repo)) (snd (performanceNow owner repo)))
      as [(e' & _ & Hf) | (data & Hd & _)]; [exact Hf | congruence]. }
  split; [reflexivity|]. split; [reflexivity|].
  assert (E : NetScore (netScoreRecord url r c failure l u)
              == 0.40 * Qmax (responsiveness r) 0 + 0.30 * Qmax (correctness c) 0
                 + 0.10 * Qmax (rampup u) 0 + 0.05 * Qmax (license l) 0).
  { simpl. pose proof clamp_failure as F. unfold clamp in *. lra. }
  split; [exact E|]. split.
  - intros H1 H2 H3 H4. rewrite E.
    apply clamp_upper in H1, H2, H3, H4. unfold clamp in *. lra.
  - simpl. lra.
Qed.

Lemma processUrl_url (url : string) :
  map URL (processUrl' url)
  = if namesRepository url && negb (evaluationThrows' url) then [url] else [].
Proof.
  unfold namesRepository, evaluationThrows.
  destruct (extractOwnerAndRepo_cases url) as [Hn | (o & p & Hs & Ho & Hp)].
  - rewrite (processUrl_malformed _ _ _ _ _ _ _ Hn), Hn. reflexivity.
  - rewrite Hs, Ho, Hp.
    destruct (evaluate' o p) as [[[[[r c] b] l] u]|e] eqn:He.
    + rewrite (processUrl_fulfilled _ _ _ _ _ _ _ _ _ _ _ _ _ _ Hs He). reflexivity.
    + rewrite (processUrl_rejected _ _ _ _ _ _ _ _ _ _ Hs He). reflexivity.
Qed.

(** X14. The records come out in the order of the input and each carries
    its line, unchanged, as URL: the URLs of the printed records are the
    lines that name a repository and whose evaluation does not throw, in
    their order. *)
Theorem records_follow_input_order :
  forall urls : list string,
    map URL (processLines' urls)
    = filter (fun url => namesRepository url && negb (evaluationThrows' url)) urls.
Proof.
  intros urls. rewrite processLines_flat_map.
  induction urls as [|url urls IH]; simpl; [reflexivity|].
  rewrite map_app, IH, processUrl_url.
  destruct (namesRepository url && negb (evaluationThrows' url)); reflexivity.
Qed.

End Records.

Lemma failed_bus_factor_degrades_record_witness :
  exists rec,
    processUrl steadyResponsiveness steadyCorrectness steadyLicense steadyRampUp
               quarterSecond unreachable "https://github.com/acme/gone" = [rec] /\
    BusFactor rec = -1.
Proof.
  destruct (failed_bus_factor_degrades_record
              steadyResponsiveness steadyCorrectness steadyLicense steadyRampUp
              quarterSecond unreachable
              "https://github.com/acme/gone" "acme" "gone" "Not Found"
              {| responsiveness := 0.5; responsiveness_latency := 0.1 |}
              {| correctness := 1; correctness_latency := 0.1 |}
              {| license := 1; license_latency := 0.1 |}
              {| rampup := 0.25; rampup_latency := 0.1 |}
              eq_refl eq_refl eq_refl eq_refl eq_refl eq_refl)
    as (rec & Hrec & Hb & _).
  exists rec. split; assumption.
Defined.

Section Output.
Variable calculateResponsiveness : string -> string -> Octokit -> Promise responsivenessResult.
Variable calculateCorrectness : string -> string -> Octokit -> Promise correctnessResult.
Variable calculateLicenseCompatibility : string -> string -> Q -> Octokit -> Promise licenseResult.
Variable calculateRampUpTime : string -> string -> Q -> Octokit -> Promise rampupResult.
Variable performanceNow : string -> string -> Q * Q.
Variable octokit : Octokit.

Local Abbreviation evaluate' :=
  (evaluate calculateResponsiveness calculateCorrectness
            calculateLicenseCompatibility calculateRampUpTime performanceNow octokit).
Local Abbreviation processUrl' :=
  (processUrl calculateResponsiveness calculateCorrectness
              calculateLicenseCompatibility calculateRampUpTime performanceNow octokit).
Local Abbreviation processUrls' :=
  (Run.processUrls calculateResponsiveness calculateCorrectness
                   calculateLicenseCompatibility calculateRampUpTime performanceNow octokit).

(** What the join hands over is what the bus-factor evaluator returned. *)
Lemma evaluate_bus_factor (owner repo : string) r c b l u :
  evaluate' owner repo = Fulfilled (r, c, b, l, u) ->
  calculateBusFactor owner repo 50 octokit
    (fst (performanceNow owner repo)) (snd (performanceNow owner repo)) = Fulfilled b.
Proof.
  unfold evaluate, all5, await.
  destruct (calculateResponsiveness owner repo octokit); [|discriminate].
  destruct (calculateCorrectness owner repo octokit); [|discriminate].
  destruct (calculateBusFactor owner repo 50 octokit _ _); [|discriminate].
  destruct (calculateLicenseCompatibility owner repo 50 octokit); [|discriminate].
  destruct (calculateRampUpTime owner repo 50 octokit); [|discriminate].
  intros H; injection H as <- <- <- <- <-. reflexivity.
Qed.

(** X17. In every record the loop prints, whatever the other evaluators
    do, the BusFactor field is one of -1, 0, 0.25, 0.5, 0.75 and 1; the
    BusFactor_Latency is -1 when the BusFactor is -1 and the elapsed time
    of the evaluation, in seconds, otherwise; and the NetScore is not
    negative. *)
Theorem printed_bus_factor_values :
  forall (url : string) (rec : NetScoreRecord),
    In rec (processUrl' url) ->
    In (BusFactor rec) [-1; 0; 0.25; 0.5; 0.75; 1] /\
    (BusFactor rec = -1 -> BusFactor_Latency rec = -1) /\
    (BusFactor rec <> -1 ->
     exists owner repo,
       extractOwnerAndRepo url = (Some owner, Some repo) /\
       BusFactor_Latency rec
       = (snd (performanceNow owner repo) - fst (performanceNow owner repo)) / 1000) /\
    0 <= NetScore rec.
Proof.
  intros url rec Hin.
  destruct (extractOwnerAndRepo_cases url) as [Hn | (o & p & Hs & _)].
  { rewrite (processUrl_malformed _ _ _ _ _ _ _ Hn) in Hin. destruct Hin. }
  destruct (evaluate' o p) as [[[[[r c] b] l] u]|e] eqn:He.
  2:{ rewrite (processUrl_rejected _ _ _ _ _ _ _ _ _ _ Hs He) in Hin. destruct Hin. }
  rewrite (processUrl_fulfilled _ _ _ _ _ _ _ _ _ _ _ _ _ _ Hs He) in Hin.
  destruct Hin as [<-|[]].
  pose proof (evaluate_bus_factor _ _ _ _ _ _ _ He) as Hb.
  split; [|split; [|split]].
  - destruct (calculateBusFactor_outcome o p 50 octokit
                (fst (performanceNow o p)) (snd (performanceNow o p)))
      as [(e' & _ & Hf) | (data & _ & Hok)].
    + rewrite Hf in Hb. injection Hb as <-. left. reflexivity.
    + rewrite Hok in Hb. injection Hb as <-. right.
      apply scaledBusFactorOf_levels.
  - destruct (calculateBusFactor_outcome o p 50 octokit
                (fst (performanceNow o p)) (snd (performanceNow o p)))
      as [(e' & _ & Hf) | (data & _ & Hok)].
    + rewrite Hf in Hb. injection Hb as <-. reflexivity.
    + rewrite Hok in Hb. injection Hb as <-. simpl.
      pose proof (scaledBusFactorOf_levels (rawBusFactor data 50)) as Hlev.
      intros E. rewrite E in Hlev. simpl in Hlev.
      destruct Hlev as [H|[H|[H|[H|[H|[]]]]]]; discriminate H.
  - destruct (calculateBusFactor_outcome o p 50 octokit
                (fst (performanceNow o p)) (snd (performanceNow o p)))
      as [(e' & _ & Hf) | (data & _ & Hok)].
    + rewrite Hf in Hb. injection Hb as <-. simpl. congruence.
    + rewrite Hok in Hb. injection Hb as <-. simpl. intros _.
      exists o, p. split; [exact Hs | reflexivity].
  - apply netScore_nonneg.
Qed.

Lemma flat_map_skip_empty {B} (f : string -> list B) (lines : list string) :
  f "" = [] ->
  flat_map f (filter (fun line => negb (isEmpty line)) lines) = flat_map f lines.
Proof.
  intros Hf. induction lines as [|line lines IH]; simpl; [reflexivity|].
  destruct line as [|a line]; simpl.
  - rewrite Hf. exact IH.
  - rewrite IH. reflexivity.
Qed.

(** X18. What a URL file yields is what its lines yield one by one: for
    a file made of newline-free lines joined by newlines, the records
    printed are those of the first line, then those of the second, and so
    on; blank lines add nothing. *)
Theorem processUrls_line_by_line :
  forall lines : list string,
    Forall (fun line => without newline line = true) lines ->
    processUrls' (joinLines lines) = flat_map processUrl' lines.
Proof.
  intros lines Hall. unfold Run.processUrls.
  rewrite (readUrls_joinLines lines Hall).
  rewrite processLines_flat_map.
  apply flat_map_skip_empty. reflexivity.
Qed.

End Output.

Lemma printed_bus_factor_values_witness :
  In (BusFactor
        (netScoreRecord "https://github.com/nodejs/node"
           {| responsiveness := 0.5; responsiveness_latency := 0.1 |}
           {| correctness := 1; correctness_latency := 0.1 |}
           {| busfactor := 0.5; busfactory_latency := (1250 - 1000) / 1000 |}
           {| license := 1; license_latency := 0.1 |}
           {| rampup := 0.25; rampup_latency := 0.1 |}))
     [-1; 0; 0.25; 0.5; 0.75; 1].
Proof.
  apply (printed_bus_factor_values
           steadyResponsiveness steadyCorrectness steadyLicense steadyRampUp
           quarterSecond (respondsWith evenSplit)
           "https://github.com/nodejs/node" _ (or_introl eq_refl)).
Defined.

Lemma processUrls_line_by_line_witness :
  Run.processUrls steadyResponsiveness brittleCorrectness steadyLicense steadyRampUp
                  quarterSecond (respondsWith evenSplit) (joinLines sampleBatch)
  = flat_map (processUrl steadyResponsiveness brittleCorrectness steadyLicense
                         steadyRampUp quarterSecond (respondsWith evenSplit))
             sampleBatch.
Proof.
  apply (processUrls_line_by_line
           steadyResponsiveness brittleCorrectness steadyLicense steadyRampUp
           quarterSecond (respondsWith evenSplit) sampleBatch).
  repeat constructor.
Defined.

End RunMore.

(* ================================================================== *)
(** * Properties of the command line *)

Module CliFacts.
Import BusFactor Run Cli.
Local Open Scope string_scope.

Section Process.
Variable calculateResponsiveness : string -> string -> Octokit -> Promise responsivenessResult.
Variable calculateCorrectness : string -> string -> Octokit -> Promise correctnessResult.
Variable calculateLicenseCompatibility : string -> string -> Q -> Octokit -> Promise licenseResult.
Variable calculateRampUpTime : string -> string -> Q -> Octokit -> Promise rampupResult.
Variable performanceNow : string -> string -> Q * Q.
Variable newOctokit : option string -> Octokit.
Variable getAuthenticated : string -> Promise unit.
Variable existsSync : string -> bool.
Variable readFileSync : string -> Promise string.
Variable npmInstall : ExecResult.
Variable GITHUB_TOKEN : option string.

Local Abbreviation main' :=
  (main calculateResponsiveness calculateCorrectness calculateLicenseCompatibility
        calculateRampUpTime performanceNow newOctokit getAuthenticated
        existsSync readFileSync npmInstall GITHUB_TOKEN).

(** The token [main] works with: [process.env.GITHUB_TOKEN || '']. *)
Local Abbreviation token' :=
  (if truthy GITHUB_TOKEN then
     match GITHUB_TOKEN with Some t => t | None => EmptyString end
   else EmptyString).

Local Abbreviation recordsOf' contents :=
  (Run.processUrls calculateResponsiveness calculateCorrectness
     calculateLicenseCompatibility calculateRampUpTime performanceNow
     (newOctokit (if truthy (Some token') then Some token' else None)) contents).

(** X15. The credential check of [main] stops nothing.  When GitHub
    rejects the token, [validateToken] fulfils with false, yet [main]
    tests the promise and not its value: for an existing, readable URL file
    it goes on to process the URLs and exits with code 0. *)
Theorem rejected_token_does_not_stop_main :
  forall (argv : list string) (urlFile contents : string) (e : error),
    nth_error argv 2 = Some urlFile ->
    urlFile <> "install" -> urlFile <> "test" ->
    existsSync urlFile = true ->
    readFileSync urlFile = Fulfilled contents ->
    getAuthenticated token' = Rejected e ->
    validateToken getAuthenticated token' = Fulfilled false /\
    main' argv = Exit 0 (recordsOf' contents).
Proof.
  intros argv urlFile contents e Hcmd Hi Ht Hex Hread Hrej.
  split.
  - unfold validateToken. rewrite Hrej. reflexivity.
  - unfold main. rewrite Hcmd.
    apply String.eqb_neq in Hi, Ht. rewrite Hi, Ht.
    unfold commandExists, truthyPromise, processUrls.
    rewrite Hex, Hread. reflexivity.
Qed.

(** X16. [main] ends with code 0 or 1 unless reading the file throws; a
    run that ends with code 1 has printed no record; and records are only
    ever printed by a run on an existing URL file, which then ends with
    code 0 and has printed what the batch loop prints for its contents. *)
Theorem main_exit_codes :
  forall (argv : list string) (code : Z) (printed : list NetScoreRecord),
    main' argv = Exit code printed ->
    (code = 0%Z \/ code = 1%Z) /\
    (code = 1%Z -> printed = []) /\
    (printed <> [] ->
     code = 0%Z /\
     exists urlFile contents,
       nth_error argv 2 = Some urlFile /\
       urlFile <> "install" /\ urlFile <> "test" /\
       existsSync urlFile = true /\
       readFileSync urlFile = Fulfilled contents /\
       printed = recordsOf' contents).
Proof.
  intros argv code printed. unfold main.
  destruct (nth_error argv 2) as [cmd|] eqn:Hcmd.
  - destruct (String.eqb_spec cmd "install") as [->|Hi].
    { unfold installDependencies. destruct npmInstall; intros H; injection H as <- <-;
        (split; [auto | split; [auto | congruence]]). }
    destruct (String.eqb_spec cmd "test") as [->|Ht].
    { unfold runTests. intros H; injection H as <- <-.
      split; [auto | split; [auto | congruence]]. }
    unfold commandExists, truthyPromise, processUrls.
    destruct (existsSync cmd) eqn:Hex; simpl.
    + destruct (readFileSync cmd) as [contents|e] eqn:Hread; [|discriminate].
      intros H; injection H as <- <-.
      split; [auto|]. split; [discriminate|].
      intros _. split; [reflexivity|].
      exists cmd, contents. auto 10.
    + intros H; injection H as <- <-.
      split; [auto | split; [auto | congruence]].
  - simpl. intros H; injection H as <- <-.
    split; [auto | split; [auto | congruence]].
Qed.

End Process.

Lemma rejected_token_does_not_stop_main_witness :
  main steadyResponsiveness brittleCorrectness steadyLicense steadyRampUp
       quarterSecond (fun _ => respondsWith evenSplit) badCredentials
       urlFileOnly urlFileContents (ExecDone "") (Some "expired")
       ["node"; "run.js"; "urls.txt"]
  = Exit 0 (Run.processUrls steadyResponsiveness brittleCorrectness steadyLicense
              steadyRampUp quarterSecond (respondsWith evenSplit)
              (joinLines sampleBatch)).
Proof.
  apply (proj2 (rejected_token_does_not_stop_main
                  steadyResponsiveness brittleCorrectness steadyLicense steadyRampUp
                  quarterSecond (fun _ => respondsWith evenSplit) badCredentials
                  urlFileOnly urlFileContents (ExecDone "") (Some "expired")
                  ["node"; "run.js"; "urls.txt"] "urls.txt" (joinLines sampleBatch)
                  "Bad credentials" eq_refl ltac:(discriminate) ltac:(discriminate)
                  eq_refl eq_refl eq_refl)).
Defined.

Lemma main_exit_codes_witness :
  main steadyResponsiveness brittleCorrectness steadyLicense steadyRampUp
       quarterSecond (fun _ => respondsWith evenSplit) badCredentials
       urlFileOnly urlFileContents (ExecDone "") (Some "expired")
       ["node"; "run.js"; "missing.txt"]
  = Exit 1 [] /\
  (1 = 0 \/ 1 = 1)%Z.
Proof.
  split; [reflexivity|].
  apply (proj1 (main_exit_codes
                  steadyResponsiveness brittleCorrectness steadyLicense steadyRampUp
                  quarterSecond (fun _ => respondsWith evenSplit) badCredentials
                  urlFileOnly urlFileContents (ExecDone "") (Some "expired")
                  ["node"; "run.js"; "missing.txt"] 1%Z [] eq_refl)).
Defined.

End CliFacts.

(* ================================================================== *)
(** * The raw count as the program computes it *)

Module DoublePrecision.
Import BusFactor BusFactorFacts BusFactorMore Binary64 Binary64Facts.

(** ** A total divided by itself *)

Lemma div_eucl_exact (m : positive) :
  Z.div_eucl (Z.shiftl (Zpos m) 53) (Zpos m) = ((2 ^ 53)%Z, 0%Z).
Proof.
  rewrite Z.shiftl_mul_pow2 by lia.
  pose proof (Z.div_mul (2 ^ 53) (Zpos m) ltac:(lia)) as Hq.
  pose proof (Z.mod_mul (2 ^ 53) (Zpos m) ltac:(lia)) as Hr.
  rewrite (Z.mul_comm (Zpos m)).
  unfold Z.div, Z.modulo in Hq, Hr.
  destruct (Z.div_eucl (2 ^ 53 * Zpos m) (Zpos m)) as [q r].
  congruence.
Qed.

(** The quotient of a finite double by itself is 1, without rounding. *)
Lemma div_self (s : bool) (m : positive) (e : Z) :
  div (S754_finite s m e) (S754_finite s m e) = ofZ 1.
Proof.
  unfold div, SFdiv, SFdiv_core_binary. cbv zeta.
  replace (Zdigits2 (Zpos m) + e - (Zdigits2 (Zpos m) + e))%Z with 0%Z by lia.
  replace (e - e)%Z with 0%Z by lia.
  change (Z.min (fexp prec emax 0) 0) with (-53)%Z.
  change (0 - -53)%Z with 53%Z.
  cbv iota. rewrite div_eucl_exact.
  assert (Hloc : new_location (Zpos m) 0 = loc_Exact).
  { unfold new_location, new_location_even, new_location_odd.
    destruct (Z.even (Zpos m)); reflexivity. }
  rewrite Hloc. destruct s; vm_compute; reflexivity.
Qed.

Lemma percentage_of_total (T : spec_float) :
  positiveFinite T = true -> percentageOf T T = ofZ 100.
Proof.
  destruct T as [s|s| |s m e]; try discriminate.
  destruct s; [discriminate|]. intros _.
  unfold percentageOf. rewrite div_self. vm_compute. reflexivity.
Qed.

(** After the last contributor the running sum is the total, so that the
    computed percentage is exactly 100. *)
Lemma computedPercentage_of_all (data : list contributor) :
  positiveFinite (totalCommitsOf (sort byCommitsDescending data)) = true ->
  computedPercentage data (List.length data) = ofZ 100.
Proof.
  intros HT. unfold computedPercentage.
  rewrite <- (length_sort byCommitsDescending data).
  unfold runningSum. rewrite firstn_all.
  apply percentage_of_total. exact HT.
Qed.

(** ** Where the loop stops *)

Lemma rawBusFactor_exit (data : list contributor) (th : spec_float) :
  (smallestComputed data th (rawBusFactor data th) /\
   (rawBusFactor data th <= List.length data)%nat)
  \/ (rawBusFactor data th = List.length data /\
      forall j, (1 <= j <= List.length data)%nat ->
                geb (computedPercentage data j) th = false).
Proof.
  unfold rawBusFactor, smallestComputed, computedPercentage.
  pose proof (length_sort byCommitsDescending data) as HL.
  destruct (walk64_exit th (totalCommitsOf (sort byCommitsDescending data))
                        (sort byCommitsDescending data) (ofZ 0) 0%nat)
    as [(k & Hk & Hw & Hr & Hmin) | (Hw & Hnone)];
    rewrite HL in *.
  - left. rewrite Hw. simpl. repeat split; try lia; assumption.
  - right. rewrite Hw. simpl. split; [reflexivity | exact Hnone].
Qed.

(** The claim of C3 fails on the program in two ways.  Above 100 percent
    no count of contributors holds the threshold share, and the loop runs
    to the end of the list.  And the loop compares the rounded percentage:
    29 commits of 100 compute to just under 29, so that at threshold 29 the
    loop passes the contributor who holds exactly 29 percent. *)
Lemma rawBusFactor_not_smallest_share_count :
  (dominated <> [] /\
   (0 < BusFactor.totalCommitsOf dominated)%Z /\
   rawBusFactor dominated (ofZ 101) = 3%nat /\
   ~ BusFactor.smallestReaching dominated 101 (rawBusFactor dominated (ofZ 101))) /\
  (onTheMark <> [] /\
   (0 < BusFactor.totalCommitsOf onTheMark)%Z /\
   rawBusFactor onTheMark (ofZ 29) = 2%nat /\
   BusFactor.smallestReaching onTheMark 29 1 /\
   ~ BusFactor.smallestReaching onTheMark 29 (rawBusFactor onTheMark (ofZ 29))).
Proof.
  split.
  - split; [discriminate|]. split; [reflexivity|]. split; [vm_compute; reflexivity|].
    intros (_ & Hreach & _). revert Hreach. vm_compute. intros H; apply H; reflexivity.
  - split; [discriminate|]. split; [reflexivity|]. split; [vm_compute; reflexivity|].
    split.
    + split; [lia|]. split; [vm_compute; discriminate|]. intros j Hj; lia.
    + intros (_ & _ & Hmin).
      replace (rawBusFactor onTheMark (ofZ 29)) with 2%nat in Hmin
        by (vm_compute; reflexivity).
      apply (Hmin 1%nat); [lia|]. vm_compute. discriminate.
Qed.

(** C3, amended.  For a non-empty contributor list whose total, as the
    program adds it up, is a positive finite double, and a threshold of at
    most 100, the raw bus factor is the smallest count k >= 1 for which the
    percentage the loop computes for the top k contributors (by descending
    commit count), running sum / total x 100 with each operation rounded to
    double precision, is at least the threshold; when no computed
    percentage reaches the threshold the raw bus factor is the number of
    contributors.  With threshold 50 and ten contributors of 10 commits
    each the raw bus factor is 5 and the score is 0.5. *)
Theorem rawBusFactor_is_smallest_computed_count :
  forall (data : list contributor) (th : spec_float),
    data <> [] ->
    positiveFinite (totalCommitsOf (sort byCommitsDescending data)) = true ->
    (geb (ofZ 100) th = true -> smallestComputed data th (rawBusFactor data th)) /\
    ((forall k, (1 <= k <= List.length data)%nat ->
                geb (computedPercentage data k) th = false) ->
     rawBusFactor data th = List.length data) /\
    rawBusFactor evenSplit (ofZ 50) = 5%nat /\
    (forall owner repo startTime endTime,
        calculateBusFactor owner repo (ofZ 50) (respondsWith evenSplit) startTime endTime
        = Fulfilled {| busfactor := 0.5;
                       busfactory_latency := (endTime - startTime) / 1000 |}).
Proof.
  intros data th Hne HT. split; [|split; [|split]].
  - intros Hth.
    destruct (rawBusFactor_exit data th) as [[H _] | [_ Hnone]]; [exact H|].
    exfalso.
    assert (Hlen : (1 <= List.length data <= List.length data)%nat).
    { destruct data; [congruence | simpl; lia]. }
    specialize (Hnone _ Hlen).
    rewrite (computedPercentage_of_all data HT) in Hnone. congruence.
  - intros Hnone.
    destruct (rawBusFactor_exit data th) as [[(Hk & Hreach & _) Hle] | [Hlen _]];
      [|exact Hlen].
    specialize (Hnone (rawBusFactor data th) ltac:(lia)). congruence.
  - vm_compute. reflexivity.
  - intros owner repo startTime endTime.
    unfold calculateBusFactor, await, respondsWith. simpl listContributors.
    replace (rawBusFactor evenSplit (ofZ 50)) with 5%nat by (vm_compute; reflexivity).
    reflexivity.
Qed.

Lemma rawBusFactor_is_smallest_computed_count_witness :
  smallestComputed onTheMark (ofZ 29) (rawBusFactor onTheMark (ofZ 29)).
Proof.
  apply (proj1 (rawBusFactor_is_smallest_computed_count onTheMark (ofZ 29)
                  ltac:(discriminate) ltac:(vm_compute; reflexivity))).
  vm_compute. reflexivity.
Defined.

(** ** A contributor with the largest count *)

Lemma head_holds_the_largest (data : list contributor) (c : contributor) :
  In c data ->
  (forall d, In d data -> (commits d <= commits c)%Z) ->
  exists h rest,
    sort byCommitsDescending data = h :: rest /\ commits h = commits c.
Proof.
  intros Hin Hmax.
  pose proof (sort_descending data) as Hd.
  pose proof (sort_permutation byCommitsDescending data) as HP.
  pose proof (Permutation_in _ HP Hin) as Hin'.
  destruct (sort byCommitsDescending data) as [|h rest]; [destruct Hin'|].
  exists h, rest. split; [reflexivity|].
  assert (Hh : In h data).
  { eapply Permutation_in; [apply Permutation_sym, HP | left; reflexivity]. }
  specialize (Hmax h Hh).
  destruct Hin' as [->|Hin']; [reflexivity|].
  pose proof (descending_head_max _ _ Hd (commits c) (in_map commits _ _ Hin')).
  lia.
Qed.

Lemma walk_cons (th T : spec_float) (c : contributor) (rest : list contributor)
      (cum : spec_float) (bf : nat) :
  walk th T (c :: rest) cum bf
  = if geb (percentageOf (add cum (ofZ (commits c))) T) th then S bf
    else walk th T rest (add cum (ofZ (commits c))) (S bf).
Proof. reflexivity. Qed.

(** X7. When the percentage the program computes for a contributor with
    the largest commit count alone, (0 + commits) / total x 100 in double
    precision, is at least the threshold, the loop stops at the first
    contributor: the raw bus factor is 1 and the score is 0. *)
Theorem largest_holder_scores_zero :
  forall (data : list contributor) (th : spec_float) (c : contributor),
    In c data ->
    (forall d, In d data -> (commits d <= commits c)%Z) ->
    geb (percentageOf (add (ofZ 0) (ofZ (commits c)))
                      (totalCommitsOf (sort byCommitsDescending data))) th = true ->
    rawBusFactor data th = 1%nat /\
    scaledBusFactorOf (rawBusFactor data th) = 0.
Proof.
  intros data th c Hin Hmax Hth.
  destruct (head_holds_the_largest data c Hin Hmax) as (h & rest & Hs & Hc).
  assert (Hraw : rawBusFactor data th = 1%nat).
  { unfold rawBusFactor. rewrite Hs in *. rewrite walk_cons, Hc, Hth. reflexivity. }
  split; [exact Hraw | rewrite Hraw; reflexivity].
Qed.

Lemma largest_holder_scores_zero_witness :
  rawBusFactor dominated (ofZ 50) = 1%nat /\
  scaledBusFactorOf (rawBusFactor dominated (ofZ 50)) = 0.
Proof.
  apply (largest_holder_scores_zero dominated (ofZ 50)
           {| login := "A"; commits := 60 |}).
  - left. reflexivity.
  - intros d [<-|[<-|[<-|[]]]]; simpl; lia.
  - vm_compute. reflexivity.
Defined.

(** ** When the exact embedding gives the program's count *)

(** The rational embedding and the program count alike whenever rounding
    flips none of the comparisons of the loop. *)
Lemma exact_count_when_comparisons_agree
      (data : list contributor) (th : Q) (th64 : spec_float) :
  (forall k, (1 <= k <= List.length data)%nat ->
             geb (computedPercentage data k) th64
             = reaches th (BusFactor.totalCommitsOf (sort byCommitsDescending data))
                       (0 + commitsOfTop k (sort byCommitsDescending data))) ->
  rawBusFactor data th64 = BusFactor.rawBusFactor data th.
Proof.
  intros Hagree.
  pose proof (length_sort byCommitsDescending data) as HL.
  unfold BusFactor.rawBusFactor.
  destruct (BusFactorFacts.walk_exit th
              (BusFactor.totalCommitsOf (sort byCommitsDescending data))
              (sort byCommitsDescending data) 0%Z 0%nat)
    as [(k & Hk & Hw & Hr & Hmin) | (Hw & Hnone)];
    rewrite HL in *; rewrite Hw; simpl.
  - destruct (rawBusFactor_exit data th64) as [[(Hk1 & Hr1 & Hmin1) Hle] | [Hlen Hnone1]].
    + destruct (Nat.lt_trichotomy (rawBusFactor data th64) k) as [Hlt|[Heq|Hgt]];
        [|exact Heq|].
      * specialize (Hmin _ (conj Hk1 Hlt)).
        rewrite Hagree in Hr1 by lia. congruence.
      * specialize (Hmin1 k ltac:(lia)).
        rewrite Hagree in Hmin1 by lia. congruence.
    + specialize (Hnone1 k Hk). rewrite Hagree in Hnone1 by lia. congruence.
  - destruct (rawBusFactor_exit data th64) as [[(Hk1 & Hr1 & _) Hle] | [Hlen _]];
      [|exact Hlen].
    specialize (Hnone (rawBusFactor data th64) ltac:(lia)).
    rewrite Hagree in Hr1 by lia. congruence.
Qed.

End DoublePrecision.
